(** * The BTCPay invoice client and the Auth.js adapter built on it

    A shallow embedding of [src/server/plugins/btcpay.js] (the invoice-API
    client) and [src/server/plugins/btcpayAdapter.js] (the document-store
    adapter), together with the properties the specification states about
    them.

    Conventions of the embedding:
    - JavaScript values are the inductive type [value]; an object is a finite
      map from property names to values (own enumerable properties only:
      members inherited from a prototype are not represented, and the
      enumeration order of the keys is abstracted away);
    - numbers are integers, strings are sequences of code units;
    - [async] functions are computations in the monad [M], which threads the
      state of the remote service, the log of the HTTP requests sent so far
      and the entropy source, and which propagates thrown exceptions;
    - URL paths are kept structured ([endpoint]) instead of being rendered
      to text: the percent-encoding done by [encodeURIComponent] is
      injective on the strings it accepts, so nothing is lost. *)

From stdpp Require Import gmap strings list fin_maps pretty.
From Stdlib Require Import ZArith Ascii Strings.Byte.

Set Default Proof Using "Type".
Open Scope Z_scope.

(** ** JavaScript values *)

#[warnings="-register-all"]
Inductive value : Type :=
| VUndef
| VNull
| VBool (b : bool)
| VNum (z : Z)
| VStr (s : string)
| VArr (l : list value)
| VObj (o : gmap string value).

Abbreviation obj := (gmap string value).

(** What a [throw] carries. *)
Inductive exn : Type :=
| Error (msg : string)          (* [new Error(msg)] *)
| TypeError                     (* a property read on [undefined] or [null] *)
| FetchError (status : Z).      (* [$fetch] rejecting: transport failure or non-2xx *)

Inductive result (A : Type) : Type :=
| Ok (a : A)
| Throw (e : exn).
Arguments Ok {A} a.
Arguments Throw {A} e.

(** ToBoolean. *)
Definition truthy (v : value) : bool :=
  match v with
  | VUndef | VNull => false
  | VBool b => b
  | VNum z => negb (z =? 0)
  | VStr s => negb (String.eqb s "")
  | VArr _ | VObj _ => true
  end.

Definition nullish (v : value) : bool :=
  match v with
  | VUndef | VNull => true
  | _ => false
  end.

(** [typeof v === "object"]. *)
Definition typeof_object (v : value) : bool :=
  match v with
  | VNull | VArr _ | VObj _ => true
  | _ => false
  end.

(** [a === b]. Objects and arrays are compared by reference; the two sides of
    every comparison in the source come from different places (a freshly
    parsed response and a caller's argument), so they are never the same
    reference. *)
Definition strict_eq (a b : value) : bool :=
  match a, b with
  | VUndef, VUndef => true
  | VNull, VNull => true
  | VBool x, VBool y => Bool.eqb x y
  | VNum x, VNum y => x =? y
  | VStr x, VStr y => String.eqb x y
  | _, _ => false
  end.

(** [a || b]. *)
Definition or_else (a b : value) : value := if truthy a then a else b.

(** The indexed own properties of an array or of a string. *)
Definition index_props (l : list value) : obj :=
  list_to_map (imap (λ i x, (pretty i, x)) l).

Fixpoint code_units (s : string) : list value :=
  match s with
  | EmptyString => []
  | String c s' => VStr (String c EmptyString) :: code_units s'
  end.

(** The own enumerable properties, which is what [...v] copies. *)
Definition own_props (v : value) : obj :=
  match v with
  | VObj o => o
  | VArr l => index_props l
  | VStr s => index_props (code_units s)
  | _ => ∅
  end.

(** [v.k] when [v] is known not to be [undefined] or [null]. *)
Definition prop (v : value) (k : string) : value :=
  match v with
  | VArr l =>
      if String.eqb k "length" then VNum (Z.of_nat (length l))
      else default VUndef (index_props l !! k)
  | VStr s =>
      if String.eqb k "length" then VNum (Z.of_nat (String.length s))
      else default VUndef (index_props (code_units s) !! k)
  | v => default VUndef (own_props v !! k)
  end.

(** [v.k] in general: reading a property of [undefined] or [null] throws. *)
Definition get (v : value) (k : string) : result value :=
  if nullish v then Throw TypeError else Ok (prop v k).

(** ToString, as done by template literals, [encodeURIComponent] and
    [URLSearchParams.append]. *)
Fixpoint to_string (v : value) : string :=
  match v with
  | VUndef => "undefined"
  | VNull => "null"
  | VBool true => "true"
  | VBool false => "false"
  | VNum z => pretty z
  | VStr s => s
  | VArr l =>
      (fix join (l : list value) : string :=
         match l with
         | [] => ""
         | [x] => if nullish x then "" else to_string x
         | x :: l' => (if nullish x then "" else to_string x) +:+ "," +:+ join l'
         end) l
  | VObj _ => "[object Object]"
  end.

(** [arr.find(p)] and [arr.filter(p)] for a callback that may throw. *)
Fixpoint find_r (p : value → result bool) (l : list value) : result value :=
  match l with
  | [] => Ok VUndef
  | x :: l' =>
      match p x with
      | Throw e => Throw e
      | Ok true => Ok x
      | Ok false => find_r p l'
      end
  end.

Fixpoint filter_r (p : value → result bool) (l : list value) : result (list value) :=
  match l with
  | [] => Ok []
  | x :: l' =>
      match p x with
      | Throw e => Throw e
      | Ok b =>
          match filter_r p l' with
          | Throw e => Throw e
          | Ok r => Ok (if b then x :: r else r)
          end
      end
  end.

(** ** HTTP requests and the remote service *)

Inductive http_method : Type := GET | POST.

(** The [path] argument of [request], below [/api/v1]. *)
Inductive endpoint : Type :=
| Invoices (query : list (string * string))             (* /invoices?k=v&... *)
| Invoice (invoiceId storeId : string)                  (* /invoices/ID?storeId=S *)
| InvoiceArchive (invoiceId storeId : string).          (* /invoices/ID/archive?storeId=S *)

Record http_request : Type := {
  rq_base : string;            (* [_baseUrl] *)
  rq_authorization : string;   (* the [Authorization] header *)
  rq_method : http_method;
  rq_path : endpoint;
  rq_body : value;
}.

(** The remote invoice API is an external collaborator: any deterministic
    service with a state of its own. *)
Class Remote : Type := {
  remote_state : Type;
  fetch : http_request → remote_state → result value * remote_state;
}.

Record world `{Remote} : Type := {
  server : remote_state;
  trace : list http_request;   (* the requests sent so far, oldest first *)
  entropy : nat → byte;        (* what [crypto.randomBytes] draws from *)
  cursor : nat;                (* how much of it has been drawn *)
}.

(** ** The monad of [async] code *)

Definition M `{Remote} (A : Type) : Type := world → result A * world.

#[export] Instance M_ret `{Remote} : MRet M := λ A a w, (Ok a, w).

#[export] Instance M_bind `{Remote} : MBind M := λ A B f m w,
  match m w with
  | (Ok a, w') => f a w'
  | (Throw e, w') => (Throw e, w')
  end.

Definition throw `{Remote} {A : Type} (e : exn) : M A := λ w, (Throw e, w).

Definition lift `{Remote} {A : Type} (r : result A) : M A := λ w, (r, w).

(** ** The invoice-API client ([btcpay.js]) *)

Record client_config : Type := {
  baseUrl : string;
  apiKey : string;
  userStoreId : value;
  sessionStoreId : value;
  verificationTokenStoreId : value;
}.

(** [baseUrl.replace(/\/+$/, "")]. *)
Fixpoint strip_trailing_slashes (s : string) : string :=
  match s with
  | EmptyString => EmptyString
  | String c s' =>
      let r := strip_trailing_slashes s' in
      if Ascii.eqb c "/"%char && String.eqb r "" then EmptyString else String c r
  end.

(** The optional [queryParams] of [listInvoices], already in the form of the
    [URLSearchParams] built from it; [None] is an omitted argument. *)
Abbreviation query_params := (option (list (string * string))).

(** The methods that [makeStoreMethods] binds to one store. *)
Record StoreMethods `{Remote} : Type := {
  sm_createInvoice : value → M value;
  sm_getInvoiceByOrderId : value → M value;
  sm_updateInvoice : value → value → M value;
  sm_archiveInvoice : value → M value;
  sm_listInvoices : query_params → M (list value);
  sm_findInvoiceByMetadata : string → value → M value;
  sm_archiveInvoicesByMetadata : string → value → M (list value);
}.

(** The object returned by [BTCPayClient]. *)
Record Client `{Remote} : Type := {
  user : StoreMethods;
  session : StoreMethods;
  verificationToken : StoreMethods;
  c_createInvoice : value → value → M value;
  c_getInvoiceByOrderId : value → value → M value;
  c_updateInvoice : value → value → value → M value;
  c_archiveInvoice : value → value → M value;
  c_listInvoices : value → query_params → M (list value);
  c_findInvoiceByMetadata : value → string → value → M value;
  c_archiveInvoicesByMetadata : value → string → value → M (list value);
  c_wrapPayload : value → value;
  c_unwrapInvoice : value → value;
  c_request : endpoint → http_method → value → M value;
}.

(** [doc && typeof doc === "object" && !doc.metadata
      ? { orderId: doc.id, metadata: doc } : doc] *)
Definition wrapPayload (doc : value) : value :=
  if truthy doc && typeof_object doc && negb (truthy (prop doc "metadata"))
  then VObj (<["orderId" := prop doc "id"]> (<["metadata" := doc]> ∅))
  else doc.

(** [invoice ? { id: invoice.orderId, ...invoice.metadata, btcpayId: invoice.id }
      : null]. Later entries of an object literal win, so the fields of the
    metadata override [id], and [btcpayId] overrides the metadata. *)
Definition unwrapInvoice (invoice : value) : value :=
  if truthy invoice
  then VObj (<["btcpayId" := prop invoice "id"]>
               (own_props (prop invoice "metadata") ∪ {["id" := prop invoice "orderId"]}))
  else VNull.

(** [(inv) => !inv.archived] *)
Definition not_archived (inv : value) : result bool :=
  match get inv "archived" with
  | Ok a => Ok (negb (truthy a))
  | Throw e => Throw e
  end.

(** [(doc) => doc && doc[key] === value], as a condition. *)
Definition field_matches (key : string) (v : value) (doc : value) : bool :=
  truthy doc && strict_eq (prop doc key) v.

Section client.
Context `{Remote} (cfg : client_config).

Definition request (path : endpoint) (method : http_method) (body : value) : M value :=
  λ w,
    let rq := {| rq_base := strip_trailing_slashes (baseUrl cfg);
                 rq_authorization := "token " +:+ apiKey cfg;
                 rq_method := method;
                 rq_path := path;
                 rq_body := body |} in
    let '(r, s) := fetch rq (server w) in
    (r, {| server := s; trace := trace w ++ [rq];
           entropy := entropy w; cursor := cursor w |}).

Definition createInvoice (storeId doc : value) : M value :=
  let payload := wrapPayload doc in
  let path := Invoices [("storeId", to_string storeId)] in
  invoice ← request path POST payload;
  mret (unwrapInvoice invoice).

Definition getInvoiceByOrderId (storeId orderId : value) : M value :=
  let path := Invoices [("storeId", to_string storeId); ("orderId", to_string orderId)] in
  result ← request path GET VUndef;
  match result with
  | VArr l =>
      activeInvoice ← lift (find_r not_archived l);
      mret (if truthy activeInvoice then unwrapInvoice activeInvoice else VNull)
  | _ => mret VNull
  end.

Definition updateInvoice (storeId orderId doc : value) : M value :=
  let payload := wrapPayload doc in
  existingInvoice ← getInvoiceByOrderId storeId orderId;
  if negb (truthy existingInvoice) then throw (Error "Invoice not found for update.")
  else
    let btcpayInvoiceId := or_else (prop existingInvoice "btcpayId") (prop existingInvoice "id") in
    let path := Invoice (to_string btcpayInvoiceId) (to_string storeId) in
    updatedInvoice ← request path POST payload;
    mret (unwrapInvoice updatedInvoice).

Definition archiveInvoice (storeId orderId : value) : M value :=
  existingInvoice ← getInvoiceByOrderId storeId orderId;
  if negb (truthy existingInvoice) then throw (Error "Invoice not found for archiving.")
  else
    let btcpayInvoiceId := or_else (prop existingInvoice "btcpayId") (prop existingInvoice "id") in
    let path := InvoiceArchive (to_string btcpayInvoiceId) (to_string storeId) in
    archivedInvoice ← request path POST VUndef;
    mret (unwrapInvoice archivedInvoice).

Definition listInvoices (storeId : value) (queryParams : query_params) : M (list value) :=
  let qs := default [] queryParams in
  let qs := qs ++ [("storeId", to_string storeId)] in
  let path := Invoices qs in
  result ← request path GET VUndef;
  match result with
  | VArr l =>
      active ← lift (filter_r not_archived l);
      mret (map unwrapInvoice active)
  | _ => mret []
  end.

Definition findInvoiceByMetadata (storeId : value) (key : string) (v : value) : M value :=
  invoices ← listInvoices storeId None;
  let invoice := default VUndef (List.find (field_matches key v) invoices) in
  mret (or_else invoice VNull).

(** The [for ... of] loop of [archiveInvoicesByMetadata]. *)
Fixpoint archive_each (storeId : value) (docs : list value) : M (list value) :=
  match docs with
  | [] => mret []
  | doc :: rest =>
      archived ← archiveInvoice storeId (prop doc "id");
      results ← archive_each storeId rest;
      mret (archived :: results)
  end.

Definition archiveInvoicesByMetadata (storeId : value) (key : string) (v : value)
  : M (list value) :=
  invoices ← listInvoices storeId None;
  let matchingInvoices := List.filter (field_matches key v) invoices in
  archive_each storeId matchingInvoices.

Definition makeStoreMethods (storeId : value) : StoreMethods := {|
  sm_createInvoice := λ doc, createInvoice storeId doc;
  sm_getInvoiceByOrderId := λ orderId, getInvoiceByOrderId storeId orderId;
  sm_updateInvoice := λ orderId doc, updateInvoice storeId orderId doc;
  sm_archiveInvoice := λ orderId, archiveInvoice storeId orderId;
  sm_listInvoices := λ queryParams, listInvoices storeId (Some (default [] queryParams));
  sm_findInvoiceByMetadata := λ key v, findInvoiceByMetadata storeId key v;
  sm_archiveInvoicesByMetadata := λ key v, archiveInvoicesByMetadata storeId key v;
|}.

Definition BTCPayClient : Client := {|
  user := makeStoreMethods (userStoreId cfg);
  session := makeStoreMethods (sessionStoreId cfg);
  verificationToken := makeStoreMethods (verificationTokenStoreId cfg);
  c_createInvoice := createInvoice;
  c_getInvoiceByOrderId := getInvoiceByOrderId;
  c_updateInvoice := updateInvoice;
  c_archiveInvoice := archiveInvoice;
  c_listInvoices := listInvoices;
  c_findInvoiceByMetadata := findInvoiceByMetadata;
  c_archiveInvoicesByMetadata := archiveInvoicesByMetadata;
  c_wrapPayload := wrapPayload;
  c_unwrapInvoice := unwrapInvoice;
  c_request := request;
|}.

End client.

(** ** The document-store adapter ([btcpayAdapter.js]) *)

Definition hex_digit (n : N) : ascii :=
  default "0"%char (String.get (N.to_nat n) "0123456789abcdef").

(** [Buffer.toString("hex")]: two lowercase digits per byte. *)
Definition hex_of_byte (b : byte) : string :=
  let n := Byte.to_N b in
  String (hex_digit (n / 16)) (String (hex_digit (n mod 16)) EmptyString).

Fixpoint hex_of_bytes (l : list byte) : string :=
  match l with
  | [] => EmptyString
  | b :: l' => hex_of_byte b +:+ hex_of_bytes l'
  end.

(** [crypto.randomBytes(n)]: the next [n] bytes of the entropy source. *)
Definition randomBytes `{Remote} (n : nat) : M (list byte) :=
  λ w, (Ok (map (λ i, entropy w (cursor w + i)%nat) (seq 0 n)),
        {| server := server w; trace := trace w;
           entropy := entropy w; cursor := (cursor w + n)%nat |}).

(** [crypto.randomBytes(12).toString("hex")] *)
Definition generateId `{Remote} : M string :=
  bytes ← randomBytes 12;
  mret (hex_of_bytes bytes).

(** The [storeIds] option. *)
Record store_ids : Type := {
  Users : value;
  Sessions : value;
  VerificationTokens : value;
}.

(** The object returned by [BTCPayAdapter]. A document passed to a creating
    method is an object, and the method returns it as the caller sees it
    afterwards (the source assigns [data.id] in place). *)
Record Adapter `{Remote} : Type := {
  createUser : obj → M obj;
  getUser : value → M value;
  getUserByEmail : value → M value;
  getUserByAccount : value → M value;
  updateUser : value → M value;
  deleteUser : value → M value;
  linkAccount : value → M value;
  unlinkAccount : value → M value;
  getSessionAndUser : value → M value;
  createSession : obj → M obj;
  updateSession : value → M value;
  deleteSession : value → M value;
  createVerificationToken : obj → M obj;
  useVerificationToken : value → M value;
}.

Section adapter.
Context `{Remote} (btcpayClient : Client) (storeIds : store_ids).

Definition createDocument (store : value) (data : obj) : M obj :=
  data ← (if negb (truthy (prop (VObj data) "id"))
          then id ← generateId; mret (<["id" := VStr id]> data)
          else mret data);
  let invoiceData :=
    VObj (<["orderId" := prop (VObj data) "id"]> (<["metadata" := VObj data]> ∅)) in
  _ ← c_createInvoice btcpayClient store invoiceData;
  mret data.

Definition getDocument (store id : value) : M value :=
  invoice ← c_getInvoiceByOrderId btcpayClient store id;
  mret (if truthy invoice then prop invoice "metadata" else VNull).

Definition updateDocument (store id data : value) : M value :=
  updatedInvoice ← c_updateInvoice btcpayClient store id (VObj {["metadata" := data]});
  lift (get updatedInvoice "metadata").

Definition deleteDocument (store id : value) : M value :=
  c_archiveInvoice btcpayClient store id.

Definition findDocumentByField (store : value) (field : string) (v : value) : M value :=
  invoice ← c_findInvoiceByMetadata btcpayClient store field v;
  mret (if truthy invoice then prop invoice "metadata" else VNull).

Definition adapter_methods : Adapter := {|
  createUser := λ data, createDocument (Users storeIds) data;

  getUser := λ id, getDocument (Users storeIds) id;

  getUserByEmail := λ email, findDocumentByField (Users storeIds) "email" email;

  getUserByAccount := λ _data, mret VNull;

  updateUser := λ data,
    id ← lift (get data "id");
    if negb (truthy id) then throw (Error "User must have an id to update.")
    else updateDocument (Users storeIds) id data;

  deleteUser := λ id,
    _ ← deleteDocument (Users storeIds) id;
    _ ← c_archiveInvoicesByMetadata btcpayClient (Sessions storeIds) "userId" id;
    _ ← c_archiveInvoicesByMetadata btcpayClient (VerificationTokens storeIds) "userId" id;
    mret VUndef;

  linkAccount := λ data, mret data;

  unlinkAccount := λ data, mret data;

  getSessionAndUser := λ sessionToken,
    session ← findDocumentByField (Sessions storeIds) "sessionToken" sessionToken;
    if negb (truthy session) then mret VNull
    else
      user ← getDocument (Users storeIds) (prop session "userId");
      mret (if truthy user
            then VObj (<["session" := session]> (<["user" := user]> ∅))
            else VNull);

  createSession := λ data, createDocument (Sessions storeIds) data;

  updateSession := λ data,
    id ← lift (get data "id");
    if negb (truthy id) then throw (Error "Session must have an id to update.")
    else updateDocument (Sessions storeIds) id data;

  deleteSession := λ sessionToken,
    session ← findDocumentByField (Sessions storeIds) "sessionToken" sessionToken;
    if negb (truthy session) then mret VNull
    else
      _ ← deleteDocument (Sessions storeIds) (prop session "id");
      mret session;

  createVerificationToken := λ data, createDocument (VerificationTokens storeIds) data;

  useVerificationToken := λ data,
    identifier ← lift (get data "identifier");
    invoice ← c_findInvoiceByMetadata btcpayClient
                (VerificationTokens storeIds) "identifier" identifier;
    if negb (truthy invoice) then mret VNull
    else
      stored ← lift (get (prop invoice "metadata") "token");
      given ← lift (get data "token");
      if negb (strict_eq stored given) then mret VNull
      else
        id ← lift (get (prop invoice "metadata") "id");
        _ ← deleteDocument (VerificationTokens storeIds) id;
        mret (prop invoice "metadata");
|}.

End adapter.

(** [BTCPayAdapter(btcpayClient, options)]; [options] is the [storeIds] member
    of the options object, [None] when it is missing. Construction throws
    unless all three store identifiers are truthy. *)
Definition BTCPayAdapter `{Remote} (btcpayClient : Client) (options : option store_ids)
  : result Adapter :=
  match options with
  | None => Throw (Error "You must supply storeIds for Users, Sessions, and VerificationTokens.")
  | Some storeIds =>
      if negb (truthy (Users storeIds)) || negb (truthy (Sessions storeIds))
         || negb (truthy (VerificationTokens storeIds))
      then Throw (Error "You must supply storeIds for Users, Sessions, and VerificationTokens.")
      else Ok (adapter_methods btcpayClient storeIds)
  end.

(** The wiring of [server/api/auth/[...].js]: the adapter over the client,
    both configured with the same three store identifiers. The handler
    writes [new BTCPayClient(...)]; what is modelled is the plain call of
    the factory. *)
Definition auth_adapter `{Remote} (cfg : client_config) : result Adapter :=
  BTCPayAdapter (BTCPayClient cfg)
    (Some {| Users := userStoreId cfg;
             Sessions := sessionStoreId cfg;
             VerificationTokens := verificationTokenStoreId cfg |}).

(** ** A reference model of the remote invoice API *)

(** Modelled from the spec: the remote invoice service (sections 3 and 6),
    an external collaborator that is not part of the repository. An invoice
    is [{id, orderId, metadata, archived}] in one store; listing filters by
    [storeId] and, when given, by [orderId], and reports archived invoices
    too; creation assigns a fresh processor id; an update replaces the
    metadata wholesale; archiving sets the flag. *)
Record invoice : Type := {
  inv_store : string;
  inv_id : string;
  inv_orderId : string;
  inv_metadata : value;
  inv_archived : bool;
}.

Record ledger : Type := {
  invoices : list invoice;
  next_id : nat;
}.

Definition invoice_json (i : invoice) : value :=
  VObj (<["id" := VStr (inv_id i)]>
       (<["orderId" := VStr (inv_orderId i)]>
       (<["metadata" := inv_metadata i]>
       (<["archived" := VBool (inv_archived i)]> ∅)))).

Definition query_get (k : string) (qs : list (string * string)) : option string :=
  snd <$> List.find (λ p, String.eqb (fst p) k) qs.

Definition selects (qs : list (string * string)) (i : invoice) : bool :=
  match query_get "storeId" qs with
  | Some s => String.eqb (inv_store i) s
  | None => false
  end
  && match query_get "orderId" qs with
     | Some o => String.eqb (inv_orderId i) o
     | None => true
     end.

Definition targets (id store : string) (i : invoice) : bool :=
  String.eqb (inv_id i) id && String.eqb (inv_store i) store.

Definition set_archived (i : invoice) : invoice :=
  {| inv_store := inv_store i; inv_id := inv_id i; inv_orderId := inv_orderId i;
     inv_metadata := inv_metadata i; inv_archived := true |}.

Definition set_metadata (m : value) (i : invoice) : invoice :=
  {| inv_store := inv_store i; inv_id := inv_id i; inv_orderId := inv_orderId i;
     inv_metadata := m; inv_archived := inv_archived i |}.

Definition amend (f : invoice → invoice) (id store : string) (l : list invoice)
  : list invoice :=
  map (λ i, if targets id store i then f i else i) l.

Definition respond_amended (f : invoice → invoice) (id store : string) (st : ledger)
  : result value * ledger :=
  match List.find (targets id store) (invoices st) with
  | Some i =>
      (Ok (invoice_json (f i)),
       {| invoices := amend f id store (invoices st); next_id := next_id st |})
  | None => (Throw (FetchError 404), st)
  end.

Definition ledger_fetch (rq : http_request) (st : ledger) : result value * ledger :=
  match rq_method rq, rq_path rq with
  | GET, Invoices qs =>
      (Ok (VArr (map invoice_json (List.filter (selects qs) (invoices st)))), st)
  | POST, Invoices qs =>
      match query_get "storeId" qs, prop (rq_body rq) "orderId" with
      | Some s, VStr o =>
          let i := {| inv_store := s; inv_id := "inv" +:+ pretty (next_id st);
                      inv_orderId := o; inv_metadata := prop (rq_body rq) "metadata";
                      inv_archived := false |} in
          (Ok (invoice_json i),
           {| invoices := invoices st ++ [i]; next_id := S (next_id st) |})
      | _, _ => (Throw (FetchError 400), st)
      end
  | POST, Invoice id store =>
      respond_amended (set_metadata (prop (rq_body rq) "metadata")) id store st
  | POST, InvoiceArchive id store =>
      respond_amended set_archived id store st
  | GET, _ => (Throw (FetchError 405), st)
  end.

Definition ledger_remote : Remote :=
  {| remote_state := ledger; fetch := ledger_fetch |}.

(** A service that answers every request with the same response. *)
Definition fixed_remote (response : result value) : Remote :=
  {| remote_state := unit; fetch := λ _ st, (response, st) |}.

Definition start `{Remote} (s : remote_state) : world :=
  {| server := s; trace := []; entropy := λ _, x00; cursor := 0%nat |}.

(** The store identifiers and the documents used in the examples. *)
Definition demo_config : client_config :=
  {| baseUrl := "https://pay.example/"; apiKey := "k";
     userStoreId := VStr "U"; sessionStoreId := VStr "S";
     verificationTokenStoreId := VStr "T" |}.

Definition demo_user : obj :=
  <["id" := VStr "u1"]> (<["email" := VStr "a@b.com"]> ∅).

Definition demo_session : obj :=
  <["id" := VStr "s1"]> (<["sessionToken" := VStr "tok"]> (<["userId" := VStr "u1"]> ∅)).

Definition demo_token : obj :=
  <["id" := VStr "t1"]> (<["identifier" := VStr "a@b.com"]> (<["token" := VStr "123"]> ∅)).

Definition demo_user_invoice : invoice :=
  {| inv_store := "U"; inv_id := "inv0"; inv_orderId := "u1";
     inv_metadata := VObj demo_user; inv_archived := false |}.

Definition demo_ledger : ledger :=
  {| invoices :=
       [ demo_user_invoice;
         {| inv_store := "S"; inv_id := "inv1"; inv_orderId := "s1";
            inv_metadata := VObj demo_session; inv_archived := false |};
         {| inv_store := "T"; inv_id := "inv2"; inv_orderId := "t1";
            inv_metadata := VObj demo_token; inv_archived := false |};
         {| inv_store := "T"; inv_id := "inv3"; inv_orderId := "t2";
            inv_metadata := VObj (<["id" := VStr "t2"]> (<["userId" := VStr "u1"]> ∅));
            inv_archived := false |} ];
     next_id := 4 |}.

Definition demo_world : @world ledger_remote := @start ledger_remote demo_ledger.

Definition demo_adapter : @Adapter ledger_remote :=
  @adapter_methods ledger_remote (BTCPayClient demo_config)
    {| Users := VStr "U"; Sessions := VStr "S"; VerificationTokens := VStr "T" |}.

(** A response listing an archived invoice followed by an active one. *)
Definition demo_response : list value :=
  [ invoice_json {| inv_store := "U"; inv_id := "inv7"; inv_orderId := "u1";
                    inv_metadata := VObj demo_user; inv_archived := true |};
    invoice_json {| inv_store := "U"; inv_id := "inv8"; inv_orderId := "u1";
                    inv_metadata := VObj demo_user; inv_archived := false |} ].

(** ** Vocabulary of the statements *)

(** The [archived] flag of an invoice as the client reads it. *)
Definition archived (inv : value) : bool := truthy (prop inv "archived").

Definition active (inv : value) : bool := negb (archived inv).

(** A response in which no invoice is active: not a list at all, or a list
    of invoice objects that are all archived. *)
Definition no_active (response : value) : bool :=
  match response with
  | VArr l => forallb (λ inv, negb (nullish inv) && archived inv) l
  | _ => true
  end.

Definition is_array (v : value) : bool :=
  match v with
  | VArr _ => true
  | _ => false
  end.

(** The document [doc] is the unwrapping of an active invoice of [l]. *)
Definition from_active (l : list value) (doc : value) : Prop :=
  ∃ inv, inv ∈ l ∧ archived inv = false ∧ prop inv "archived" ≠ VBool true
         ∧ doc = unwrapInvoice inv.

(** The invoice holds a document that has no field of its own called
    [metadata], as every document of the three kinds of section 3. *)
Definition plain (inv : value) : bool :=
  match own_props (prop inv "metadata") !! "metadata" with
  | None => true
  | Some _ => false
  end.

(** The methods [sm] are the client's operations at the store [storeId]. *)
Definition bound_to `{Remote} (c : Client) (sm : StoreMethods) (storeId : value) : Prop :=
  (∀ doc, sm_createInvoice sm doc = c_createInvoice c storeId doc)
  ∧ (∀ orderId, sm_getInvoiceByOrderId sm orderId = c_getInvoiceByOrderId c storeId orderId)
  ∧ (∀ orderId doc, sm_updateInvoice sm orderId doc = c_updateInvoice c storeId orderId doc)
  ∧ (∀ orderId, sm_archiveInvoice sm orderId = c_archiveInvoice c storeId orderId)
  ∧ (∀ queryParams, sm_listInvoices sm queryParams = c_listInvoices c storeId queryParams)
  ∧ (∀ key v, sm_findInvoiceByMetadata sm key v = c_findInvoiceByMetadata c storeId key v)
  ∧ (∀ key v, sm_archiveInvoicesByMetadata sm key v
              = c_archiveInvoicesByMetadata c storeId key v).


(** The request that [request] sends. *)
Definition sent (cfg : client_config) (path : endpoint) (method : http_method)
  (body : value) : http_request :=
  {| rq_base := strip_trailing_slashes (baseUrl cfg);
     rq_authorization := "token " +:+ apiKey cfg;
     rq_method := method; rq_path := path; rq_body := body |}.


(** The world after the requests [rqs] have been sent and left the remote
    service in state [s]. *)
Definition logged `{Remote} (rqs : list http_request) (s : remote_state) (w : world)
  : world :=
  {| server := s; trace := trace w ++ rqs; entropy := entropy w; cursor := cursor w |}.

(** *** Vocabulary for the reference ledger *)

(** The document that the client reads out of a stored invoice. *)
Definition doc_of (i : invoice) : value := unwrapInvoice (invoice_json i).

Definition inv_active (i : invoice) : bool := negb (inv_archived i).

(** The data-model invariants of section 3 on the invoices of a ledger:
    processor ids are unique and non-empty, the active invoices of a store
    have distinct order ids, and the [id] of an active document is its
    order id. *)
Definition well_formed (l : list invoice) : bool :=
  bool_decide (NoDup (map inv_id l))
  && forallb (λ i, negb (String.eqb (inv_id i) "")) l
  && bool_decide (NoDup (map (λ i, (inv_store i, inv_orderId i))
                           (List.filter inv_active l)))
  && forallb (λ i, String.eqb (to_string (prop (doc_of i) "id")) (inv_orderId i))
       (List.filter inv_active l).

(** The active invoices of [store] whose document has [key] equal to [v]. *)
Definition matching (store : value) (key : string) (v : value) (l : list invoice)
  : list invoice :=
  List.filter (λ i, String.eqb (inv_store i) (to_string store) && inv_active i
                    && field_matches key v (doc_of i)) l.

(** The ledger once each invoice of [targeted] has been archived. *)
Definition archive_all (targeted : list invoice) (l : list invoice) : list invoice :=
  map (λ j, if existsb (λ i, targets (inv_id i) (inv_store i) j) targeted
            then set_archived j else j) l.

Definition after_archiving (targeted : list invoice) (st : ledger) : ledger :=
  {| invoices := archive_all targeted (invoices st); next_id := next_id st |}.

(** The two requests by which [archiveInvoice] archives the invoice [i]. *)
Definition archival (cfg : client_config) (i : invoice) : list http_request :=
  [ sent cfg (Invoices [("storeId", inv_store i); ("orderId", inv_orderId i)]) GET VUndef;
    sent cfg (InvoiceArchive (inv_id i) (inv_store i)) POST VUndef ].

(** The requests of [archiveInvoicesByMetadata] in [store] when the invoices
    found to match are [found]. *)
Definition bulk_archival (cfg : client_config) (store : value) (found : list invoice)
  : list http_request :=
  sent cfg (Invoices [("storeId", to_string store)]) GET VUndef
  :: flat_map (archival cfg) found.

(** The archive requests of a trace, in the order they were sent, each as
    the pair of the invoice id and the store it addresses. *)
Definition archive_posts (rqs : list http_request) : list (string * string) :=
  flat_map (λ rq, match rq_method rq, rq_path rq with
                  | POST, InvoiceArchive id store => [(id, store)]
                  | _, _ => []
                  end) rqs.

(** *** Vocabulary for the further properties *)

Fixpoint only_slashes (s : string) : bool :=
  match s with
  | EmptyString => true
  | String c s' => Ascii.eqb c "/"%char && only_slashes s'
  end.

Fixpoint ends_with_slash (s : string) : bool :=
  match s with
  | EmptyString => false
  | String c EmptyString => Ascii.eqb c "/"%char
  | String _ s' => ends_with_slash s'
  end.

(** Running [m] only adds requests to the trace, and each one it adds
    satisfies [P]. *)
Definition sends `{Remote} {A : Type} (P : http_request → Prop) (m : M A) : Prop :=
  ∀ w, ∃ rqs, trace (snd (m w)) = trace w ++ rqs ∧ Forall P rqs.

(** The request goes to the configured server with the configured key. *)
Definition credentialed (cfg : client_config) (rq : http_request) : Prop :=
  rq_base rq = strip_trailing_slashes (baseUrl cfg)
  ∧ rq_authorization rq = "token " +:+ apiKey cfg.

(** The invoice id that [updateInvoice] and [archiveInvoice] put in the path
    once they have resolved [inv]: [existingInvoice.btcpayId ||
    existingInvoice.id], read off the unwrapped invoice. *)
Definition address_of (inv : value) : string :=
  to_string (or_else (prop inv "id")
               (default (prop inv "orderId")
                  (own_props (prop inv "metadata") !! "id"))).

(** What the reference ledger of the examples lists for a store. *)
Definition demo_listing (store : string) : list value :=
  map invoice_json (List.filter (selects [("storeId", store)]) (invoices demo_ledger)).

Definition demo_token_invoice : invoice :=
  {| inv_store := "T"; inv_id := "inv2"; inv_orderId := "t1";
     inv_metadata := VObj demo_token; inv_archived := false |}.

(** Reading two hexadecimal digits back into a byte, the inverse of
    [hex_of_byte]; it serves to show that the rendering loses nothing. *)
Definition hex_digit_value (c : ascii) : option N :=
  (fix index (digits : list ascii) (n : N) : option N :=
     match digits with
     | [] => None
     | d :: digits' => if Ascii.eqb c d then Some n else index digits' (N.succ n)
     end) (String.list_ascii_of_string "0123456789abcdef") 0%N.

Definition byte_of_hex (s : string) : option byte :=
  match s with
  | String hi (String lo EmptyString) =>
      match hex_digit_value hi, hex_digit_value lo with
      | Some h, Some l => Byte.of_N (16 * h + l)
      | _, _ => None
      end
  | _ => None
  end.

(** The names that every object inherits from [Object.prototype]; reading
    one of them off a document gives the inherited member, which the model
    of [prop] (own properties) does not represent. *)
Definition object_prototype_member (key : string) : bool :=
  existsb (String.eqb key)
    ["constructor"; "hasOwnProperty"; "isPrototypeOf"; "propertyIsEnumerable";
     "toLocaleString"; "toString"; "valueOf"; "__proto__"; "__defineGetter__";
     "__defineSetter__"; "__lookupGetter__"; "__lookupSetter__"].

(** [BTCPayAdapter(btcpayClient, options)] for any second argument,
    [VUndef] when it is omitted: the default [options = {}], the
    destructuring [const { storeIds } = options], which throws on null, and
    the check of the three identifiers. *)
Definition BTCPayAdapter_called `{Remote} (btcpayClient : Client) (options : value)
  : result Adapter :=
  let options := match options with VUndef => VObj ∅ | _ => options end in
  match get options "storeIds" with
  | Throw e => Throw e
  | Ok storeIds =>
      if negb (truthy storeIds) || negb (truthy (prop storeIds "Users"))
         || negb (truthy (prop storeIds "Sessions"))
         || negb (truthy (prop storeIds "VerificationTokens"))
      then Throw (Error "You must supply storeIds for Users, Sessions, and VerificationTokens.")
      else Ok (adapter_methods btcpayClient
                 {| Users := prop storeIds "Users";
                    Sessions := prop storeIds "Sessions";
                    VerificationTokens := prop storeIds "VerificationTokens" |})
  end.

(** The options object [{ storeIds: { Users, Sessions, VerificationTokens } }]. *)
Definition options_object (ids : store_ids) : value :=
  VObj {["storeIds" :=
           VObj (<["Users" := Users ids]> (<["Sessions" := Sessions ids]>
                (<["VerificationTokens" := VerificationTokens ids]> ∅)))]}.

(** What the cascade of [deleteUser(id)] is to achieve, started in [w]: once
    the call has completed, every invoice of the Users store under the order
    id is archived, and so is every session and every verification token
    whose [userId] is [id]. *)
Definition cascade_done (cfg : client_config) (a : @Adapter ledger_remote) (id : value)
  (w : @world ledger_remote) : Prop :=
  ∀ w', deleteUser a id w = (Ok VUndef, w') →
    (∀ j, j ∈ invoices (server w') →
          inv_store j = to_string (userStoreId cfg) →
          inv_orderId j = to_string id → inv_archived j = true)
    ∧ (∀ j, j ∈ invoices (server w') →
            inv_store j = to_string (sessionStoreId cfg) →
            strict_eq (prop (doc_of j) "userId") id = true → inv_archived j = true)
    ∧ (∀ j, j ∈ invoices (server w') →
            inv_store j = to_string (verificationTokenStoreId cfg) →
            strict_eq (prop (doc_of j) "userId") id = true → inv_archived j = true).

Definition empty_ledger : ledger := {| invoices := []; next_id := 0 |}.

(** The ledger after [createUser({id: "u1", email: "a@b.com"})] has been
    called twice: two active invoices of the Users store share the order
    id. *)
Definition twice_created : @world ledger_remote :=
  snd (createUser demo_adapter demo_user
         (snd (createUser demo_adapter demo_user (@start ledger_remote empty_ledger)))).

(** The ledger after two sessions have been created under the same id, the
    first for the user "u2" and the second for the user "u1", and then the
    user "u1". *)
Definition shared_session_id : @world ledger_remote :=
  snd (createUser demo_adapter demo_user
         (snd (createSession demo_adapter demo_session
                 (snd (createSession demo_adapter
                         (<["userId" := VStr "u2"]> demo_session)
                         (@start ledger_remote empty_ledger)))))).

(** * Properties *)

(** ** Stepping through the monad *)

Section monad_steps.
Context `{Remote}.

Lemma bind_ok {A B : Type} (m : M A) (f : A → M B) (w w' : world) (a : A) :
  m w = (Ok a, w') → (m ≫= f) w = f a w'.
Proof. intros Hm. unfold mbind, M_bind. by rewrite Hm. Qed.

Lemma bind_throw {A B : Type} (m : M A) (f : A → M B) (w w' : world) (e : exn) :
  m w = (Throw e, w') → (m ≫= f) w = (Throw e, w').
Proof. intros Hm. unfold mbind, M_bind. by rewrite Hm. Qed.

Lemma bind_inv_ok {A B : Type} (m : M A) (f : A → M B) (w w' : world) (b : B) :
  (m ≫= f) w = (Ok b, w') → ∃ a w1, m w = (Ok a, w1) ∧ f a w1 = (Ok b, w').
Proof.
  unfold mbind, M_bind. destruct (m w) as [[a|e] w1]; intros Hb.
  - by exists a, w1.
  - discriminate.
Qed.

Lemma request_sent (cfg : client_config) path method body (w : world) :
  request cfg path method body w =
    (fst (fetch (sent cfg path method body) (server w)),
     {| server := snd (fetch (sent cfg path method body) (server w));
        trace := trace w ++ [sent cfg path method body];
        entropy := entropy w; cursor := cursor w |}).
Proof. unfold request, sent. by destruct (fetch _ _). Qed.

End monad_steps.

(** ** Reading invoices out of a response *)

Lemma archived_flag_true (inv : value) :
  prop inv "archived" = VBool true → archived inv = true.
Proof. unfold archived. by intros ->. Qed.

Lemma not_archived_object (inv : value) :
  nullish inv = false → not_archived inv = Ok (active inv).
Proof. intros Hn. unfold not_archived, get. by rewrite Hn. Qed.

Lemma not_archived_ok (inv : value) (b : bool) :
  not_archived inv = Ok b → nullish inv = false ∧ b = active inv.
Proof.
  unfold not_archived, get. destruct (nullish inv); [discriminate|].
  intros [= <-]. done.
Qed.

Lemma find_r_objects (l : list value) :
  Forall (λ inv, nullish inv = false) l →
  find_r not_archived l = Ok (default VUndef (List.find active l)).
Proof.
  induction 1 as [|inv l Hinv _ IH]; [done|].
  simpl. rewrite (not_archived_object _ Hinv). by destruct (active inv).
Qed.

Lemma find_r_found (l : list value) (x : value) :
  find_r not_archived l = Ok x →
  x = VUndef ∨ (x ∈ l ∧ archived x = false).
Proof.
  induction l as [|inv l IH]; simpl.
  - intros [= <-]. by left.
  - destruct (not_archived inv) as [b|e] eqn:Hb; [|discriminate].
    apply not_archived_ok in Hb as [_ ->]. destruct (active inv) eqn:Ha.
    + intros [= <-]. right. split; [left|].
      unfold active in Ha. by destruct (archived inv).
    + intros Hx. destruct (IH Hx) as [->|[Hin Hx']]; [by left|].
      right. split; [by right|done].
Qed.

Lemma filter_r_objects (l : list value) :
  Forall (λ inv, nullish inv = false) l →
  filter_r not_archived l = Ok (List.filter active l).
Proof.
  induction 1 as [|inv l Hinv _ IH]; [done|].
  simpl. rewrite (not_archived_object _ Hinv), IH. by destruct (active inv).
Qed.

Lemma filter_r_ok (l r : list value) :
  filter_r not_archived l = Ok r →
  Forall (λ inv, nullish inv = false) l ∧ r = List.filter active l.
Proof.
  revert r. induction l as [|inv l IH]; simpl; intros r.
  - intros [= <-]. by split.
  - destruct (not_archived inv) as [b|e] eqn:Hb; [|discriminate].
    apply not_archived_ok in Hb as [Hn ->].
    destruct (filter_r not_archived l) as [r'|e]; [|discriminate].
    destruct (IH r' eq_refl) as [Hl ->]. intros [= <-].
    split; [by constructor|]. by destruct (active inv).
Qed.

Lemma filter_active_from (l : list value) (inv : value) :
  inv ∈ List.filter active l → inv ∈ l ∧ archived inv = false.
Proof.
  rewrite !list_elem_of_In, filter_In. unfold active.
  intros [Hin Ha]. split; [done|]. by destruct (archived inv).
Qed.

Lemma archived_false_flag (inv : value) :
  archived inv = false → prop inv "archived" ≠ VBool true.
Proof. unfold archived. intros Ha Hp. by rewrite Hp in Ha. Qed.

Lemma unwrapped_from_active (l : list value) (doc : value) :
  doc ∈ map unwrapInvoice (List.filter active l) → from_active l doc.
Proof.
  rewrite list_elem_of_fmap. intros (inv & -> & Hin).
  apply filter_active_from in Hin as [Hin Ha].
  exists inv. eauto using archived_false_flag.
Qed.

Section reads.
Context `{Remote} (cfg : client_config).

Lemma getInvoiceByOrderId_list storeId orderId (l : list value) (w w' : world) :
  request cfg (Invoices [("storeId", to_string storeId); ("orderId", to_string orderId)])
    GET VUndef w = (Ok (VArr l), w') →
  getInvoiceByOrderId cfg storeId orderId w =
    match find_r not_archived l with
    | Ok x => (Ok (if truthy x then unwrapInvoice x else VNull), w')
    | Throw e => (Throw e, w')
    end.
Proof.
  intros Hrq. unfold getInvoiceByOrderId. rewrite (bind_ok _ _ _ _ _ Hrq).
  unfold mbind, M_bind, lift, mret, M_ret. by destruct (find_r not_archived l).
Qed.

Lemma getInvoiceByOrderId_other storeId orderId (v : value) (w w' : world) :
  request cfg (Invoices [("storeId", to_string storeId); ("orderId", to_string orderId)])
    GET VUndef w = (Ok v, w') →
  is_array v = false →
  getInvoiceByOrderId cfg storeId orderId w = (Ok VNull, w').
Proof.
  intros Hrq Hv. unfold getInvoiceByOrderId. rewrite (bind_ok _ _ _ _ _ Hrq).
  by destruct v.
Qed.

Lemma listInvoices_list storeId queryParams (l : list value) (w w' : world) :
  request cfg (Invoices (default [] queryParams ++ [("storeId", to_string storeId)]))
    GET VUndef w = (Ok (VArr l), w') →
  listInvoices cfg storeId queryParams w =
    match filter_r not_archived l with
    | Ok r => (Ok (map unwrapInvoice r), w')
    | Throw e => (Throw e, w')
    end.
Proof.
  intros Hrq. unfold listInvoices. rewrite (bind_ok _ _ _ _ _ Hrq).
  unfold mbind, M_bind, lift, mret, M_ret. by destruct (filter_r not_archived l).
Qed.

Lemma listInvoices_other storeId queryParams (v : value) (w w' : world) :
  request cfg (Invoices (default [] queryParams ++ [("storeId", to_string storeId)]))
    GET VUndef w = (Ok v, w') →
  is_array v = false →
  listInvoices cfg storeId queryParams w = (Ok [], w').
Proof.
  intros Hrq Hv. unfold listInvoices. rewrite (bind_ok _ _ _ _ _ Hrq).
  by destruct v.
Qed.

Lemma listInvoices_ok storeId queryParams (l docs : list value) (w w' w'' : world) :
  request cfg (Invoices (default [] queryParams ++ [("storeId", to_string storeId)]))
    GET VUndef w = (Ok (VArr l), w') →
  listInvoices cfg storeId queryParams w = (Ok docs, w'') →
  docs = map unwrapInvoice (List.filter active l) ∧ w'' = w'.
Proof.
  intros Hrq. rewrite (listInvoices_list _ _ _ _ _ Hrq).
  destruct (filter_r not_archived l) as [r|e] eqn:Hr; [|discriminate].
  apply filter_r_ok in Hr as [_ ->]. by intros [= <- <-].
Qed.

Lemma findInvoiceByMetadata_listed storeId key v (docs : list value) (w w' : world) :
  listInvoices cfg storeId None w = (Ok docs, w') →
  findInvoiceByMetadata cfg storeId key v w =
    (Ok (or_else (default VUndef (List.find (field_matches key v) docs)) VNull), w').
Proof.
  intros Hl. unfold findInvoiceByMetadata. by rewrite (bind_ok _ _ _ _ _ Hl).
Qed.

Lemma found_field_member key v (docs : list value) :
  let doc := or_else (default VUndef (List.find (field_matches key v) docs)) VNull in
  doc = VNull ∨ (doc ∈ docs ∧ field_matches key v doc = true).
Proof.
  simpl. destruct (List.find _ docs) as [d|] eqn:Hf; [|by left].
  apply find_some in Hf as [Hin Hm]. right. simpl.
  assert (truthy d = true) as Ht.
  { unfold field_matches in Hm. by destruct (truthy d). }
  unfold or_else. rewrite Ht. by rewrite list_elem_of_In.
Qed.

End reads.

(** ** The wrap/unwrap pair *)

(** Lookups in object literals with literal keys. *)
Ltac lookups :=
  repeat first
    [ rewrite lookup_insert_eq
    | rewrite lookup_insert_ne by done
    | rewrite lookup_singleton_eq
    | rewrite lookup_singleton_ne by done
    | rewrite lookup_empty ].

Lemma wrapPayload_plain (d : obj) :
  d !! "metadata" = None →
  wrapPayload (VObj d) =
    VObj (<["orderId" := prop (VObj d) "id"]> (<["metadata" := VObj d]> ∅)).
Proof. intros Hm. unfold wrapPayload. simpl. by rewrite Hm. Qed.

Lemma unwrapInvoice_stored (d : obj) (i oid : value) (extra : obj) :
  d !! "id" = Some oid →
  extra !! "id" = Some i → extra !! "orderId" = Some oid →
  extra !! "metadata" = Some (VObj d) →
  unwrapInvoice (VObj extra) = VObj (<["btcpayId" := i]> d).
Proof.
  intros Hid Hi Ho Hm. unfold unwrapInvoice. simpl. rewrite Hi, Ho, Hm. simpl.
  f_equal. f_equal. apply map_eq. intros k. rewrite lookup_union.
  destruct (decide (k = "id")) as [->|Hk].
  - by rewrite Hid, lookup_singleton_eq.
  - rewrite lookup_singleton_ne by done. by destruct (d !! k).
Qed.

(** C6. For a document [d] that has an [id] and no [metadata] field,
    unwrapping the wrapped document gives back [d] with one field added,
    [btcpayId]; its value is the [id] of the invoice, which the bare payload
    does not have yet ([undefined]) and which the stored invoice carries once
    the processor has assigned it. Every other field of [d] is untouched. *)
Theorem wrap_unwrap_roundtrip (d : obj) (oid : value) :
  d !! "id" = Some oid →
  d !! "metadata" = None →
  unwrapInvoice (wrapPayload (VObj d)) = VObj (<["btcpayId" := VUndef]> d)
  ∧ (∀ i : value,
       unwrapInvoice (VObj (<["id" := i]> (own_props (wrapPayload (VObj d)))))
       = VObj (<["btcpayId" := i]> d))
  ∧ (∀ k : string, k ≠ "btcpayId" →
       prop (unwrapInvoice (wrapPayload (VObj d))) k = prop (VObj d) k).
Proof.
  intros Hid Hm.
  assert (wrapPayload (VObj d)
          = VObj (<["orderId" := oid]> (<["metadata" := VObj d]> ∅))) as ->.
  { rewrite wrapPayload_plain by done. simpl. by rewrite Hid. }
  assert (unwrapInvoice (VObj (<["orderId" := oid]> (<["metadata" := VObj d]> ∅)))
          = VObj (<["btcpayId" := VUndef]> d)) as Hu.
  { unfold unwrapInvoice. simpl.
    lookups. simpl.
    f_equal. f_equal. apply map_eq. intros k. rewrite lookup_union.
    destruct (decide (k = "id")) as [->|Hk].
    - by rewrite Hid, lookup_singleton_eq.
    - rewrite lookup_singleton_ne by done. by destruct (d !! k). }
  split; [done|]. split.
  - intros i. cbn [own_props].
    by apply (unwrapInvoice_stored d i oid); [done|..]; lookups.
  - intros k Hk. rewrite Hu. simpl. by rewrite lookup_insert_ne.
Qed.

Lemma wrap_unwrap_roundtrip_witness :
  unwrapInvoice (wrapPayload (VObj demo_user)) = VObj (<["btcpayId" := VUndef]> demo_user)
  ∧ (∀ i : value,
       unwrapInvoice (VObj (<["id" := i]> (own_props (wrapPayload (VObj demo_user)))))
       = VObj (<["btcpayId" := i]> demo_user))
  ∧ (∀ k : string, k ≠ "btcpayId" →
       prop (unwrapInvoice (wrapPayload (VObj demo_user))) k = prop (VObj demo_user) k).
Proof. apply (wrap_unwrap_roundtrip demo_user (VStr "u1")); reflexivity. Defined.

(** ** Archived invoices are invisible to the read paths *)

(** C4. Whatever list the remote service answers with, an invoice whose
    [archived] flag is set never reaches the result of a read:
    [getInvoiceByOrderId] returns null or the unwrapping of an active entry
    (the first one when the list holds invoice objects), [listInvoices]
    returns exactly the unwrapped active entries, and [findInvoiceByMetadata]
    returns null or a document unwrapped from an active entry. On a list of
    invoice objects all three return normally. *)
Theorem archived_invoices_invisible `{Remote} (cfg : client_config)
  (storeId orderId : value) (queryParams : query_params) (key : string) (v : value)
  (l1 l2 l3 : list value) (w1 w1' w2 w2' w3 w3' : world) :
  request cfg (Invoices [("storeId", to_string storeId); ("orderId", to_string orderId)])
    GET VUndef w1 = (Ok (VArr l1), w1') →
  request cfg (Invoices (default [] queryParams ++ [("storeId", to_string storeId)]))
    GET VUndef w2 = (Ok (VArr l2), w2') →
  request cfg (Invoices [("storeId", to_string storeId)])
    GET VUndef w3 = (Ok (VArr l3), w3') →
  ((∀ doc w, getInvoiceByOrderId cfg storeId orderId w1 = (Ok doc, w) →
             doc = VNull ∨ from_active l1 doc)
   ∧ (Forall (λ inv, nullish inv = false) l1 →
      getInvoiceByOrderId cfg storeId orderId w1
      = (Ok (from_option unwrapInvoice VNull (List.find active l1)), w1')))
  ∧ ((∀ docs w, listInvoices cfg storeId queryParams w2 = (Ok docs, w) →
                docs = map unwrapInvoice (List.filter active l2)
                ∧ Forall (from_active l2) docs)
     ∧ (Forall (λ inv, nullish inv = false) l2 →
        listInvoices cfg storeId queryParams w2
        = (Ok (map unwrapInvoice (List.filter active l2)), w2')))
  ∧ ((∀ doc w, findInvoiceByMetadata cfg storeId key v w3 = (Ok doc, w) →
               doc = VNull ∨ from_active l3 doc)
     ∧ (Forall (λ inv, nullish inv = false) l3 →
        ∃ doc, findInvoiceByMetadata cfg storeId key v w3 = (Ok doc, w3')
               ∧ (doc = VNull ∨ from_active l3 doc))).
Proof.
  intros Hq1 Hq2 Hq3. split; [split|split; split].
  - intros doc w. rewrite (getInvoiceByOrderId_list _ _ _ _ _ _ Hq1).
    destruct (find_r not_archived l1) as [x|e] eqn:Hx; [|discriminate].
    intros [= <- <-]. destruct (truthy x) eqn:Ht; [|by left].
    apply find_r_found in Hx as [->|[Hin Ha]]; [discriminate|].
    right. exists x. eauto using archived_false_flag.
  - intros Hl. rewrite (getInvoiceByOrderId_list _ _ _ _ _ _ Hq1).
    rewrite (find_r_objects _ Hl). destruct (List.find active l1) as [x|]; [|done].
    simpl. unfold unwrapInvoice. by destruct (truthy x).
  - intros docs w Hdocs.
    destruct (listInvoices_ok _ _ _ _ _ _ _ _ Hq2 Hdocs) as [-> _].
    split; [done|]. apply Forall_forall. intros doc. apply unwrapped_from_active.
  - intros Hl. rewrite (listInvoices_list _ _ _ _ _ _ Hq2).
    by rewrite (filter_r_objects _ Hl).
  - intros doc w Hf. unfold findInvoiceByMetadata in Hf.
    apply bind_inv_ok in Hf as (docs & w0 & Hl & Hf).
    destruct (listInvoices_ok _ _ None _ _ _ _ _ Hq3 Hl) as [-> _].
    injection Hf as <- _.
    destruct (found_field_member key v (map unwrapInvoice (List.filter active l3)))
      as [Hn|[Hin _]]; [by left|].
    right. by apply unwrapped_from_active.
  - intros Hl.
    assert (listInvoices cfg storeId None w3
            = (Ok (map unwrapInvoice (List.filter active l3)), w3')) as Hlist.
    { rewrite (listInvoices_list _ _ None _ _ _ Hq3).
      by rewrite (filter_r_objects _ Hl). }
    eexists. split; [by apply findInvoiceByMetadata_listed|].
    destruct (found_field_member key v (map unwrapInvoice (List.filter active l3)))
      as [Hn|[Hin _]]; [by left|].
    right. by apply unwrapped_from_active.
Qed.

Lemma archived_invoices_invisible_witness :
  let R := fixed_remote (Ok (VArr demo_response)) in
  let w : @world R := start () in
  @getInvoiceByOrderId R demo_config (VStr "U") (VStr "u1") w
  = (Ok (VObj (<["btcpayId" := VStr "inv8"]> demo_user)),
     snd (@request R demo_config
            (Invoices [("storeId", "U"); ("orderId", "u1")]) GET VUndef w))
  ∧ fst (@listInvoices R demo_config (VStr "U") None w)
    = Ok [VObj (<["btcpayId" := VStr "inv8"]> demo_user)].
Proof.
  intros R w.
  pose proof (@archived_invoices_invisible R demo_config (VStr "U") (VStr "u1") None
                "email" (VStr "a@b.com") demo_response demo_response demo_response
                w _ w _ w _ eq_refl eq_refl eq_refl) as (Hget & Hlist & _).
  split.
  - rewrite (proj2 Hget); [reflexivity|]. repeat constructor.
  - rewrite (proj2 Hlist); [reflexivity|]. repeat constructor.
Defined.

(** ** Responses that are not lists *)

(** C9. When the remote service answers with anything but a list,
    [listInvoices] returns the empty sequence and [getInvoiceByOrderId]
    returns null; neither throws. *)
Theorem non_list_responses_normalised `{Remote} (cfg : client_config)
  (storeId orderId : value) (queryParams : query_params)
  (v1 v2 : value) (w1 w1' w2 w2' : world) :
  request cfg (Invoices (default [] queryParams ++ [("storeId", to_string storeId)]))
    GET VUndef w1 = (Ok v1, w1') →
  is_array v1 = false →
  request cfg (Invoices [("storeId", to_string storeId); ("orderId", to_string orderId)])
    GET VUndef w2 = (Ok v2, w2') →
  is_array v2 = false →
  listInvoices cfg storeId queryParams w1 = (Ok [], w1')
  ∧ getInvoiceByOrderId cfg storeId orderId w2 = (Ok VNull, w2').
Proof.
  intros Hq1 Hv1 Hq2 Hv2.
  eauto using listInvoices_other, getInvoiceByOrderId_other.
Qed.

Lemma non_list_responses_normalised_witness :
  let R := fixed_remote (Ok (VObj {["error" := VStr "unavailable"]})) in
  let w : @world R := start () in
  fst (@listInvoices R demo_config (VStr "U") None w) = Ok []
  ∧ fst (@getInvoiceByOrderId R demo_config (VStr "U") (VStr "u1") w) = Ok VNull.
Proof.
  intros R w.
  destruct (@non_list_responses_normalised R demo_config (VStr "U") (VStr "u1") None
              _ _ w _ w _ eq_refl eq_refl eq_refl eq_refl) as [-> ->].
  by split.
Defined.

(** ** Store-bound methods *)

Lemma makeStoreMethods_bound `{Remote} (cfg : client_config) (storeId : value) :
  bound_to (BTCPayClient cfg) (makeStoreMethods cfg storeId) storeId.
Proof. by repeat split. Qed.

(** C10. Each of the three store objects returned by [BTCPayClient] is the
    client's own set of operations with that store's configured identifier
    supplied as the first argument, for every operation and all arguments. *)
Theorem bound_methods_delegate `{Remote} (cfg : client_config) :
  let c := BTCPayClient cfg in
  bound_to c (user c) (userStoreId cfg)
  ∧ bound_to c (session c) (sessionStoreId cfg)
  ∧ bound_to c (verificationToken c) (verificationTokenStoreId cfg).
Proof. simpl. split_and!; apply makeStoreMethods_bound. Qed.

(** ** Creating documents *)






Lemma auth_adapter_methods `{Remote} (cfg : client_config) (a : Adapter) :
  auth_adapter cfg = Ok a →
  a = adapter_methods (BTCPayClient cfg)
        {| Users := userStoreId cfg; Sessions := sessionStoreId cfg;
           VerificationTokens := verificationTokenStoreId cfg |}.
Proof.
  unfold auth_adapter, BTCPayAdapter. cbn [Users Sessions VerificationTokens].
  destruct (_ || _); [discriminate|]. by intros [= <-].
Qed.


Section creating.
Context `{Remote} (cfg : client_config).

End creating.



(** ** The client over the reference ledger *)

Lemma invoice_json_nullish (i : invoice) : nullish (invoice_json i) = false.
Proof. done. Qed.

Lemma invoice_json_archived (i : invoice) : archived (invoice_json i) = inv_archived i.
Proof. unfold archived, invoice_json. cbn [prop own_props]. by lookups. Qed.

Lemma invoice_json_active (i : invoice) : active (invoice_json i) = inv_active i.
Proof. unfold active, inv_active. by rewrite invoice_json_archived. Qed.

Lemma doc_of_fields (i : invoice) :
  doc_of i = VObj (<["btcpayId" := VStr (inv_id i)]>
                     (own_props (inv_metadata i) ∪ {["id" := VStr (inv_orderId i)]})).
Proof.
  unfold doc_of, unwrapInvoice, invoice_json. cbn [truthy prop own_props].
  by lookups.
Qed.

Lemma doc_of_truthy (i : invoice) : truthy (doc_of i) = true.
Proof. by rewrite doc_of_fields. Qed.

Lemma doc_of_btcpayId (i : invoice) : prop (doc_of i) "btcpayId" = VStr (inv_id i).
Proof. rewrite doc_of_fields. cbn [prop own_props]. by lookups. Qed.

Lemma doc_of_set_archived (i : invoice) : doc_of (set_archived i) = doc_of i.
Proof. by rewrite !doc_of_fields. Qed.

Lemma find_r_ledger (l : list invoice) :
  find_r not_archived (map invoice_json l)
  = Ok (from_option invoice_json VUndef (List.find inv_active l)).
Proof.
  induction l as [|i l IH]; [done|].
  cbn [map find_r List.find].
  rewrite not_archived_object, invoice_json_active by done.
  by destruct (inv_active i).
Qed.

Lemma filter_r_ledger (l : list invoice) :
  filter_r not_archived (map invoice_json l)
  = Ok (map invoice_json (List.filter inv_active l)).
Proof.
  induction l as [|i l IH]; [done|].
  cbn [map filter_r List.filter].
  rewrite not_archived_object, invoice_json_active, IH by done.
  by destruct (inv_active i).
Qed.

(** Lists of invoices. *)

Lemma find_the_only {A : Type} (p : A → bool) (l : list A) (x : A) :
  x ∈ l → p x = true → (∀ y, y ∈ l → p y = true → y = x) →
  List.find p l = Some x.
Proof.
  intros Hx Hp Honly. destruct (List.find p l) as [y|] eqn:Hf.
  - apply find_some in Hf as [Hy Hpy]. f_equal. apply Honly; [|done].
    by apply list_elem_of_In.
  - apply list_elem_of_In in Hx. by rewrite (find_none _ _ Hf _ Hx) in Hp.
Qed.

Lemma NoDup_map_inj {A B : Type} (f : A → B) (l : list A) (x y : A) :
  NoDup (map f l) → x ∈ l → y ∈ l → f x = f y → x = y.
Proof.
  induction l as [|a l IH]; intros Hnd Hx Hy Hf; [by apply elem_of_nil in Hx|].
  cbn [map] in Hnd. apply NoDup_cons in Hnd as [Ha Hnd].
  apply elem_of_cons in Hx as [->|Hx]; apply elem_of_cons in Hy as [->|Hy].
  - done.
  - exfalso. apply Ha. rewrite Hf. by apply (list_elem_of_fmap_2 f).
  - exfalso. apply Ha. rewrite <- Hf. by apply (list_elem_of_fmap_2 f).
  - by apply IH.
Qed.

Lemma elem_of_filter_bool {A : Type} (p : A → bool) (l : list A) (x : A) :
  x ∈ List.filter p l ↔ x ∈ l ∧ p x = true.
Proof. by rewrite !list_elem_of_In, filter_In. Qed.

Lemma NoDup_filter_bool {A : Type} (p : A → bool) (l : list A) :
  NoDup l → NoDup (List.filter p l).
Proof.
  induction 1 as [|x l Hx _ IH]; [constructor|].
  cbn [List.filter]. destruct (p x); [|done].
  constructor; [|done]. rewrite elem_of_filter_bool. tauto.
Qed.

(** What well-formedness provides. *)

Lemma well_formed_ids (l : list invoice) (i j : invoice) :
  well_formed l = true → i ∈ l → j ∈ l → inv_id i = inv_id j → i = j.
Proof.
  unfold well_formed. rewrite !andb_true_iff, bool_decide_eq_true.
  intros [[[Hnd _] _] _]. by apply NoDup_map_inj.
Qed.

Lemma well_formed_id_truthy (l : list invoice) (i : invoice) :
  well_formed l = true → i ∈ l → truthy (VStr (inv_id i)) = true.
Proof.
  unfold well_formed. rewrite !andb_true_iff, forallb_forall.
  intros [[[_ Hne] _] _] Hi. apply Hne. by apply list_elem_of_In.
Qed.

Lemma well_formed_unique (l : list invoice) (i j : invoice) :
  well_formed l = true → i ∈ l → j ∈ l →
  inv_archived i = false → inv_archived j = false →
  inv_store i = inv_store j → inv_orderId i = inv_orderId j → i = j.
Proof.
  unfold well_formed. rewrite !andb_true_iff, !bool_decide_eq_true.
  intros [[_ Hnd] _] Hi Hj Hai Haj Hs Ho.
  apply (NoDup_map_inj _ _ _ _ Hnd).
  - apply elem_of_filter_bool. unfold inv_active. by rewrite Hai.
  - apply elem_of_filter_bool. unfold inv_active. by rewrite Haj.
  - by rewrite Hs, Ho.
Qed.

Lemma well_formed_doc_id (l : list invoice) (i : invoice) :
  well_formed l = true → i ∈ l → inv_archived i = false →
  to_string (prop (doc_of i) "id") = inv_orderId i.
Proof.
  unfold well_formed. rewrite !andb_true_iff, !forallb_forall.
  intros [_ Hid] Hi Ha. apply String.eqb_eq, Hid.
  apply list_elem_of_In, elem_of_filter_bool. unfold inv_active. by rewrite Ha.
Qed.

(** Archiving. *)

Lemma amend_archive_all (i : invoice) (l : list invoice) :
  amend set_archived (inv_id i) (inv_store i) l = archive_all [i] l.
Proof.
  unfold amend, archive_all. apply map_ext. intros j. cbn [existsb].
  by rewrite orb_false_r.
Qed.

Lemma archive_all_app (is1 is2 : list invoice) (l : list invoice) :
  archive_all is2 (archive_all is1 l) = archive_all (is1 ++ is2) l.
Proof.
  unfold archive_all. rewrite map_map. apply map_ext. intros j.
  rewrite existsb_app.
  destruct (existsb _ is1) eqn:H1; cbn [orb].
  - assert (existsb (λ i, targets (inv_id i) (inv_store i) (set_archived j)) is2
            = existsb (λ i, targets (inv_id i) (inv_store i) j) is2) as -> by done.
    by destruct (existsb _ is2).
  - done.
Qed.

Lemma archive_all_nil (l : list invoice) : archive_all [] l = l.
Proof. unfold archive_all. cbn [existsb]. apply map_id. Qed.

Lemma archive_all_ids (targeted l : list invoice) :
  map inv_id (archive_all targeted l) = map inv_id l.
Proof.
  unfold archive_all. rewrite map_map. apply map_ext. intros j.
  by destruct (existsb _ targeted).
Qed.

(** Each invoice of the ledger after archiving comes from one before it:
    the same invoice, archived if it was targeted. *)
Lemma archive_all_origin (targeted l : list invoice) (j : invoice) :
  j ∈ archive_all targeted l →
  ∃ j0, j0 ∈ l
        ∧ inv_store j = inv_store j0 ∧ inv_orderId j = inv_orderId j0
        ∧ inv_id j = inv_id j0 ∧ doc_of j = doc_of j0
        ∧ (inv_archived j0 = true → inv_archived j = true)
        ∧ (j0 ∈ targeted → inv_archived j = true)
        ∧ (inv_archived j = false → j = j0).
Proof.
  unfold archive_all. rewrite list_elem_of_fmap. intros (j0 & -> & Hj0).
  exists j0. destruct (existsb _ targeted) eqn:Ht.
  - rewrite doc_of_set_archived. by split_and!.
  - split_and!; try done. intros Hin. exfalso.
    assert (existsb (λ i, targets (inv_id i) (inv_store i) j0) targeted = true)
      as Ht'; [|by rewrite Ht in Ht'].
    apply existsb_exists. exists j0. split; [by apply list_elem_of_In|].
    unfold targets. by rewrite !String.eqb_refl.
Qed.

Lemma archive_all_untouched (targeted l : list invoice) (j : invoice) :
  j ∈ l → Forall (λ i, inv_id i ≠ inv_id j) targeted → j ∈ archive_all targeted l.
Proof.
  intros Hj Hne. unfold archive_all. apply list_elem_of_fmap. exists j.
  split; [|done].
  assert (existsb (λ i, targets (inv_id i) (inv_store i) j) targeted = false) as ->;
    [|done].
  apply not_true_is_false. intros (i & Hi & Ht)%existsb_exists.
  rewrite Forall_forall in Hne. apply (Hne i); [by apply list_elem_of_In|].
  unfold targets in Ht. apply andb_true_iff in Ht as [Hid _].
  by apply String.eqb_eq in Hid.
Qed.

Lemma archive_all_active (targeted l : list invoice) :
  List.filter inv_active (archive_all targeted l) `sublist_of` List.filter inv_active l.
Proof.
  induction l as [|j l IH]; [done|].
  cbn [archive_all map List.filter]. fold (archive_all targeted l).
  destruct (existsb _ targeted).
  - assert (inv_active (set_archived j) = false) as -> by done.
    destruct (inv_active j); [by apply sublist_cons|exact IH].
  - destruct (inv_active j); [by apply sublist_skip|exact IH].
Qed.

Lemma well_formed_archive_all (targeted l : list invoice) :
  well_formed l = true → well_formed (archive_all targeted l) = true.
Proof.
  unfold well_formed.
  rewrite !andb_true_iff, !bool_decide_eq_true, !forallb_forall.
  intros [[[Hids Hne] Hnd] Hdoc]. split_and!.
  - by rewrite archive_all_ids.
  - intros j Hj. apply list_elem_of_In, archive_all_origin in Hj
      as (j0 & Hj0 & _ & _ & -> & _). by apply Hne, list_elem_of_In.
  - refine (sublist_NoDup _ _ Hnd _). apply fmap_sublist, archive_all_active.
  - intros j Hj%list_elem_of_In. apply Hdoc, list_elem_of_In.
    eapply elem_of_sublist; [done|apply archive_all_active].
Qed.

Section ledger_client.
Local Existing Instance ledger_remote.
Context (cfg : client_config).

Lemma request_listing (qs : list (string * string)) (w : world) :
  request cfg (Invoices qs) GET VUndef w =
    (Ok (VArr (map invoice_json (List.filter (selects qs) (invoices (server w))))),
     logged [sent cfg (Invoices qs) GET VUndef] (server w) w).
Proof. by rewrite request_sent. Qed.

Lemma request_archive (id store : string) (i : invoice) (w : world) :
  List.find (targets id store) (invoices (server w)) = Some i →
  request cfg (InvoiceArchive id store) POST VUndef w =
    (Ok (invoice_json (set_archived i)),
     logged [sent cfg (InvoiceArchive id store) POST VUndef]
       {| invoices := amend set_archived id store (invoices (server w));
          next_id := next_id (server w) |} w).
Proof.
  intros Hi. rewrite request_sent. cbn [fetch ledger_remote ledger_fetch sent
    rq_method rq_path]. unfold respond_amended. by rewrite Hi.
Qed.

Lemma selects_order (store orderId : string) (j : invoice) :
  selects [("storeId", store); ("orderId", orderId)] j
  = String.eqb (inv_store j) store && String.eqb (inv_orderId j) orderId.
Proof. done. Qed.

Lemma selects_store (store : string) (j : invoice) :
  selects [("storeId", store)] j = String.eqb (inv_store j) store.
Proof. unfold selects. cbn. by rewrite andb_true_r. Qed.

Lemma getInvoiceByOrderId_ledger storeId orderId (i : invoice) (w : world) :
  well_formed (invoices (server w)) = true →
  i ∈ invoices (server w) → inv_archived i = false →
  inv_store i = to_string storeId → inv_orderId i = to_string orderId →
  getInvoiceByOrderId cfg storeId orderId w =
    (Ok (doc_of i),
     logged [sent cfg (Invoices [("storeId", inv_store i); ("orderId", inv_orderId i)])
               GET VUndef] (server w) w).
Proof.
  intros Hwf Hi Ha Hs Ho.
  rewrite (getInvoiceByOrderId_list _ _ _ _ _ _ (request_listing _ _)).
  rewrite find_r_ledger, Hs, Ho.
  rewrite (find_the_only _ _ i).
  - done.
  - apply elem_of_filter_bool. split; [done|].
    rewrite selects_order, <- Hs, <- Ho. by rewrite !String.eqb_refl.
  - unfold inv_active. by rewrite Ha.
  - intros j [Hj Hsel]%elem_of_filter_bool Haj.
    rewrite selects_order, andb_true_iff, !String.eqb_eq in Hsel.
    destruct Hsel as [Hsj Hoj].
    apply (well_formed_unique _ _ _ Hwf); try done; try congruence.
    unfold inv_active in Haj. by destruct (inv_archived j).
Qed.

Lemma archiveInvoice_ledger storeId orderId (i : invoice) (w : world) :
  well_formed (invoices (server w)) = true →
  i ∈ invoices (server w) → inv_archived i = false →
  inv_store i = to_string storeId → inv_orderId i = to_string orderId →
  archiveInvoice cfg storeId orderId w =
    (Ok (doc_of i),
     logged (archival cfg i)
       (after_archiving [i] (server w)) w).
Proof.
  intros Hwf Hi Ha Hs Ho. unfold archiveInvoice.
  rewrite (bind_ok _ _ _ _ _ (getInvoiceByOrderId_ledger _ _ _ _ Hwf Hi Ha Hs Ho)).
  rewrite doc_of_truthy, doc_of_btcpayId. cbn [negb]. unfold or_else.
  rewrite (well_formed_id_truthy _ _ Hwf Hi). cbn [to_string]. rewrite <- Hs.
  assert (List.find (targets (inv_id i) (inv_store i)) (invoices (server w)) = Some i)
    as Hfind.
  { apply find_the_only; [done|..].
    - unfold targets. by rewrite !String.eqb_refl.
    - intros j Hj [Hid _]%andb_true_iff. apply String.eqb_eq in Hid.
      by apply (well_formed_ids _ _ _ Hwf). }
  erewrite bind_ok; [|by apply request_archive].
  unfold mret, M_ret.
  change (unwrapInvoice (invoice_json (set_archived i))) with (doc_of (set_archived i)).
  rewrite doc_of_set_archived, amend_archive_all.
  unfold logged, archival, after_archiving. cbn [server trace entropy cursor].
  by rewrite <- app_assoc.
Qed.

Lemma logged_nothing (w : world) : logged [] (after_archiving [] (server w)) w = w.
Proof.
  destruct w as [[l n] t e c]. unfold logged, after_archiving.
  cbn [server trace entropy cursor invoices next_id].
  by rewrite archive_all_nil, app_nil_r.
Qed.

Lemma logged_logged rqs1 rqs2 (is1 is2 : list invoice) (w : world) :
  logged rqs2 (after_archiving is2 (server (logged rqs1 (after_archiving is1 (server w)) w)))
    (logged rqs1 (after_archiving is1 (server w)) w)
  = logged (rqs1 ++ rqs2) (after_archiving (is1 ++ is2) (server w)) w.
Proof.
  unfold logged, after_archiving. cbn [server trace entropy cursor invoices next_id].
  by rewrite archive_all_app, app_assoc.
Qed.

Lemma archive_each_ledger storeId (found : list invoice) (w : world) :
  well_formed (invoices (server w)) = true →
  NoDup found →
  Forall (λ i, i ∈ invoices (server w) ∧ inv_archived i = false
               ∧ inv_store i = to_string storeId) found →
  archive_each cfg storeId (map doc_of found) w =
    (Ok (map doc_of found),
     logged (flat_map (archival cfg) found) (after_archiving found (server w)) w).
Proof.
  revert w. induction found as [|i found IH]; intros w Hwf Hnd Hall.
  - cbn [map archive_each flat_map]. unfold mret, M_ret. by rewrite logged_nothing.
  - apply NoDup_cons in Hnd as [Hi Hnd].
    apply Forall_cons in Hall as [(Hin & Ha & Hs) Hall].
    cbn [map archive_each flat_map].
    erewrite bind_ok; [|apply archiveInvoice_ledger; try done].
    2: { symmetry. by eapply well_formed_doc_id. }
    erewrite bind_ok; [|apply IH].
    + unfold mret, M_ret. by rewrite logged_logged.
    + cbn [logged server after_archiving invoices].
      by apply well_formed_archive_all.
    + done.
    + cbn [logged server after_archiving invoices].
      rewrite Forall_forall in Hall |- *. intros j Hj.
      destruct (Hall j Hj) as (Hjin & Hja & Hjs). split_and!; [|done..].
      apply archive_all_untouched; [done|]. constructor; [|done].
      intros Hid. apply Hi.
      by rewrite (well_formed_ids _ _ _ Hwf Hin Hjin Hid).
Qed.

Lemma listInvoices_ledger storeId (w : world) :
  listInvoices cfg storeId None w =
    (Ok (map doc_of
           (List.filter inv_active
              (List.filter (selects [("storeId", to_string storeId)])
                 (invoices (server w))))),
     logged [sent cfg (Invoices [("storeId", to_string storeId)]) GET VUndef]
       (server w) w).
Proof.
  rewrite (listInvoices_list _ _ None _ _ _ (request_listing _ _)).
  by rewrite filter_r_ledger, map_map.
Qed.

Lemma filter_map_doc_of (p : value → bool) (l : list invoice) :
  List.filter p (map doc_of l) = map doc_of (List.filter (λ i, p (doc_of i)) l).
Proof.
  induction l as [|i l IH]; [done|].
  cbn [map List.filter]. rewrite IH. by destruct (p (doc_of i)).
Qed.

Lemma filter_filter_bool {A : Type} (p q : A → bool) (l : list A) :
  List.filter q (List.filter p l) = List.filter (λ x, p x && q x) l.
Proof.
  induction l as [|x l IH]; [done|].
  cbn [List.filter]. destruct (p x); cbn [andb List.filter]; by rewrite IH.
Qed.

Lemma listed_matching storeId key v (l : list invoice) :
  List.filter (λ i, field_matches key v (doc_of i))
    (List.filter inv_active
       (List.filter (selects [("storeId", to_string storeId)]) l))
  = matching storeId key v l.
Proof.
  rewrite !filter_filter_bool. unfold matching. apply filter_ext.
  intros i. cbv beta. by rewrite selects_store, andb_assoc.
Qed.

Lemma matching_elem storeId key v (l : list invoice) (i : invoice) :
  i ∈ matching storeId key v l ↔
  i ∈ l ∧ inv_store i = to_string storeId ∧ inv_archived i = false
  ∧ field_matches key v (doc_of i) = true.
Proof.
  unfold matching. rewrite elem_of_filter_bool, !andb_true_iff, String.eqb_eq.
  unfold inv_active. rewrite negb_true_iff. tauto.
Qed.

Lemma archiveInvoicesByMetadata_ledger storeId key v (w : world) :
  well_formed (invoices (server w)) = true →
  let found := matching storeId key v (invoices (server w)) in
  archiveInvoicesByMetadata cfg storeId key v w =
    (Ok (map doc_of found),
     logged (bulk_archival cfg storeId found) (after_archiving found (server w)) w).
Proof.
  intros Hwf found. unfold archiveInvoicesByMetadata.
  rewrite (bind_ok _ _ _ _ _ (listInvoices_ledger _ _)).
  rewrite filter_map_doc_of, listed_matching. fold found.
  rewrite archive_each_ledger.
  - unfold bulk_archival, logged, after_archiving.
    cbn [server trace entropy cursor invoices next_id].
    by rewrite <- app_assoc.
  - done.
  - subst found. unfold matching. apply NoDup_filter_bool. eapply NoDup_fmap_1.
    unfold well_formed in Hwf.
    rewrite !andb_true_iff, bool_decide_eq_true in Hwf.
    apply Hwf.
  - apply Forall_forall. intros i Hi%matching_elem.
    tauto.
Qed.

End ledger_client.

(** ** Deleting a user *)

Lemma archive_posts_app (rqs1 rqs2 : list http_request) :
  archive_posts (rqs1 ++ rqs2) = archive_posts rqs1 ++ archive_posts rqs2.
Proof. apply flat_map_app. Qed.

Lemma archive_posts_archivals (cfg : client_config) (found : list invoice) :
  archive_posts (flat_map (archival cfg) found)
  = map (λ i, (inv_id i, inv_store i)) found.
Proof.
  induction found as [|i found IH]; [done|].
  cbn [flat_map map]. rewrite archive_posts_app, IH. done.
Qed.

Lemma archive_posts_bulk (cfg : client_config) (store : value) (found : list invoice) :
  archive_posts (bulk_archival cfg store found)
  = map (λ i, (inv_id i, inv_store i)) found.
Proof.
  unfold bulk_archival.
  change (archive_posts (?rq :: ?rqs)) with (archive_posts ([rq] ++ rqs)).
  by rewrite archive_posts_app, archive_posts_archivals.
Qed.

Lemma field_matches_doc_of key v (i : invoice) :
  field_matches key v (doc_of i) = strict_eq (prop (doc_of i) key) v.
Proof. unfold field_matches. by rewrite doc_of_truthy. Qed.

(** After [archiveInvoicesByMetadata], no active invoice of the store
    matches any more, and this stays so when more invoices are archived. *)
Lemma matching_all_archived store key v (l later : list invoice) (j : invoice) :
  j ∈ archive_all later (archive_all (matching store key v l) l) →
  inv_store j = to_string store →
  strict_eq (prop (doc_of j) key) v = true →
  inv_archived j = true.
Proof.
  intros (j2 & Hj2 & Hs2 & _ & _ & Hd2 & Hkeep2 & _)%archive_all_origin Hs Hm.
  apply Hkeep2.
  apply archive_all_origin in Hj2
    as (j1 & Hj1 & Hs1 & _ & _ & Hd1 & Hkeep1 & Hhit1 & _).
  destruct (inv_archived j1) eqn:Ha1; [by apply Hkeep1|].
  apply Hhit1, matching_elem. split_and!; [done| congruence |done|].
  rewrite field_matches_doc_of. congruence.
Qed.

Section deleting.
Local Existing Instance ledger_remote.
Context (cfg : client_config).

Lemma deleteUser_ledger (id : value) (w : world) (u : invoice) :
  well_formed (invoices (server w)) = true →
  u ∈ invoices (server w) → inv_archived u = false →
  inv_store u = to_string (userStoreId cfg) → inv_orderId u = to_string id →
  let a := adapter_methods (BTCPayClient cfg)
             {| Users := userStoreId cfg; Sessions := sessionStoreId cfg;
                VerificationTokens := verificationTokenStoreId cfg |} in
  let l1 := archive_all [u] (invoices (server w)) in
  let sessions := matching (sessionStoreId cfg) "userId" id l1 in
  let l2 := archive_all sessions l1 in
  let tokens := matching (verificationTokenStoreId cfg) "userId" id l2 in
  deleteUser a id w =
    (Ok VUndef,
     logged (archival cfg u ++ bulk_archival cfg (sessionStoreId cfg) sessions
             ++ bulk_archival cfg (verificationTokenStoreId cfg) tokens)
       (after_archiving ([u] ++ sessions ++ tokens) (server w)) w).
Proof.
  intros Hwf Hu Ha Hs Ho a l1 sessions l2 tokens.
  cbn [deleteUser a adapter_methods Users Sessions VerificationTokens].
  unfold deleteDocument. cbn [c_archiveInvoice c_archiveInvoicesByMetadata BTCPayClient].
  erewrite bind_ok; [|by apply archiveInvoice_ledger].
  erewrite bind_ok; [|apply archiveInvoicesByMetadata_ledger].
  2: { cbn [logged server after_archiving invoices]. by apply well_formed_archive_all. }
  erewrite bind_ok; [|apply archiveInvoicesByMetadata_ledger].
  2: { cbn [logged server after_archiving invoices].
       by do 2 apply well_formed_archive_all. }
  unfold mret, M_ret. f_equal.
  unfold logged, after_archiving.
  cbn [server invoices next_id trace entropy cursor].
  subst tokens l2 sessions l1. by rewrite !archive_all_app, <- !app_assoc.
Qed.

End deleting.

Section cascade.
Local Existing Instance ledger_remote.

(** C7. On a well-formed ledger that holds the user's active invoice,
    [deleteUser(id)] completes, and afterwards the user's invoice is
    archived, every session whose [userId] is [id] is archived and every
    verification token whose [userId] is [id] is archived. The archive
    requests go out in this order: the user's invoice, then the matching
    sessions, then the matching verification tokens. *)
Theorem deleteUser_cascade (cfg : client_config) (a : Adapter) (id : value)
  (w : world) (u : invoice) :
  auth_adapter cfg = Ok a →
  well_formed (invoices (server w)) = true →
  u ∈ invoices (server w) → inv_archived u = false →
  inv_store u = to_string (userStoreId cfg) → inv_orderId u = to_string id →
  ∃ (w' : world) (sessions tokens : list invoice),
    deleteUser a id w = (Ok VUndef, w')
    ∧ (∀ j, j ∈ invoices (server w') →
            inv_store j = to_string (userStoreId cfg) →
            inv_orderId j = to_string id → inv_archived j = true)
    ∧ (∀ j, j ∈ invoices (server w') →
            inv_store j = to_string (sessionStoreId cfg) →
            strict_eq (prop (doc_of j) "userId") id = true → inv_archived j = true)
    ∧ (∀ j, j ∈ invoices (server w') →
            inv_store j = to_string (verificationTokenStoreId cfg) →
            strict_eq (prop (doc_of j) "userId") id = true → inv_archived j = true)
    ∧ Forall (λ i, inv_store i = to_string (sessionStoreId cfg)) sessions
    ∧ Forall (λ i, inv_store i = to_string (verificationTokenStoreId cfg)) tokens
    ∧ sessions = matching (sessionStoreId cfg) "userId" id
                   (archive_all [u] (invoices (server w)))
    ∧ tokens = matching (verificationTokenStoreId cfg) "userId" id
                 (archive_all sessions (archive_all [u] (invoices (server w))))
    ∧ archive_posts (drop (length (trace w)) (trace w'))
      = (inv_id u, inv_store u)
        :: map (λ i, (inv_id i, inv_store i)) sessions
        ++ map (λ i, (inv_id i, inv_store i)) tokens.
Proof.
  intros Hadapter Hwf Hu Ha Hs Ho. apply auth_adapter_methods in Hadapter as ->.
  pose proof (deleteUser_ledger cfg id w u Hwf Hu Ha Hs Ho) as Hrun.
  cbv zeta in Hrun.
  set (l1 := archive_all [u] (invoices (server w))) in *.
  set (sessions := matching (sessionStoreId cfg) "userId" id l1) in *.
  set (l2 := archive_all sessions l1) in *.
  set (tokens := matching (verificationTokenStoreId cfg) "userId" id l2) in *.
  eexists _, sessions, tokens. split; [exact Hrun|].
  cbn [logged server trace after_archiving invoices].
  split_and!.
  - intros j (j0 & Hj0 & Hsj & Hoj & _ & _ & Hkeep & Hhit & _)%archive_all_origin
      Hstore Horder.
    destruct (inv_archived j0) eqn:Ha0; [by apply Hkeep|].
    apply Hhit. rewrite (well_formed_unique _ j0 u Hwf); try done; try congruence.
    by left.
  - intros j Hj. rewrite <- !archive_all_app in Hj.
    by apply (matching_all_archived _ _ _ _ _ _ Hj).
  - intros j Hj. rewrite <- !archive_all_app in Hj.
    fold l1 in Hj. fold l2 in Hj. rewrite <- archive_all_nil in Hj.
    by apply (matching_all_archived _ _ _ _ _ _ Hj).
  - apply Forall_forall. by intros i (_ & ? & _)%matching_elem.
  - apply Forall_forall. by intros i (_ & ? & _)%matching_elem.
  - done.
  - done.
  - rewrite drop_app_length, !archive_posts_app, !archive_posts_bulk. done.
Qed.

End cascade.

Lemma deleteUser_cascade_witness :
  ∃ w', deleteUser demo_adapter (VStr "u1") demo_world = (Ok VUndef, w')
        ∧ map inv_archived (invoices (server w')) = [true; true; false; true]
        ∧ archive_posts (trace w') = [("inv0", "U"); ("inv1", "S"); ("inv3", "T")].
Proof.
  destruct (deleteUser_cascade demo_config demo_adapter (VStr "u1") demo_world
              demo_user_invoice)
    as (w' & sessions & tokens & Hrun & _); [reflexivity| vm_compute; reflexivity
      | by left | reflexivity..|].
  exists w'. split; [done|].
  assert (w' = snd (deleteUser demo_adapter (VStr "u1") demo_world)) as ->
    by (by rewrite Hrun).
  split; vm_compute; reflexivity.
Defined.

(** ** Updating or archiving what is not there *)

Lemma find_r_all_archived (l : list value) :
  forallb (λ inv, negb (nullish inv) && archived inv) l = true →
  find_r not_archived l = Ok VUndef.
Proof.
  induction l as [|inv l IH]; [done|].
  cbn [forallb find_r]. rewrite !andb_true_iff, negb_true_iff.
  intros [[Hn Ha] Hl]. rewrite not_archived_object by done.
  unfold active. rewrite Ha. by apply IH.
Qed.

Lemma getInvoiceByOrderId_none `{Remote} (cfg : client_config) storeId orderId
  (response : value) (w w' : world) :
  request cfg (Invoices [("storeId", to_string storeId); ("orderId", to_string orderId)])
    GET VUndef w = (Ok response, w') →
  no_active response = true →
  getInvoiceByOrderId cfg storeId orderId w = (Ok VNull, w').
Proof.
  intros Hrq Hnone. destruct (is_array response) eqn:Harr.
  - destruct response as [| | | | |l|]; try discriminate.
    rewrite (getInvoiceByOrderId_list _ _ _ _ _ _ Hrq).
    by rewrite find_r_all_archived.
  - by eapply getInvoiceByOrderId_other.
Qed.

Lemma find_some_member {A : Type} (p : A → bool) (l : list A) (x : A) :
  x ∈ l → p x = true → ∃ y, List.find p l = Some y.
Proof.
  intros Hx Hp. destruct (List.find p l) as [y|] eqn:Hf; [by exists y|].
  apply list_elem_of_In in Hx. by rewrite (find_none _ _ Hf _ Hx) in Hp.
Qed.

Lemma filter_selects_amend (qs : list (string * string)) (id store : string)
  (l : list invoice) :
  List.filter (selects qs) (amend set_archived id store l)
  = amend set_archived id store (List.filter (selects qs) l).
Proof.
  induction l as [|j l IH]; [done|].
  cbn [amend map List.filter]. fold (amend set_archived id store l).
  assert (selects qs (if targets id store j then set_archived j else j)
          = selects qs j) as -> by (by destruct (targets id store j)).
  destruct (selects qs j); cbn [amend map]; by rewrite IH.
Qed.

(** C5. When no active invoice exists for the order id (the query is answered
    by something that is not a list, or by a list of archived invoices),
    [updateInvoice] and [archiveInvoice] throw their "not found" error after
    the query alone: no update or archive request is sent. In particular a
    second [archiveInvoice] on an order id whose only invoice the first call
    archived throws "not found". *)
Theorem missing_invoice_not_found (R : Remote) (cfg : client_config)
  (storeId orderId doc response : value) (w w' : @world R)
  (lw : @world ledger_remote) (i : invoice) :
  let query := Invoices [("storeId", to_string storeId);
                         ("orderId", to_string orderId)] in
  @request R cfg query GET VUndef w = (Ok response, w') →
  no_active response = true →
  List.filter (selects [("storeId", to_string storeId); ("orderId", to_string orderId)])
    (invoices (server lw)) = [i] →
  inv_archived i = false →
  inv_id i ≠ "" →
  (@updateInvoice R cfg storeId orderId doc w
     = (Throw (Error "Invoice not found for update."), w')
   ∧ @archiveInvoice R cfg storeId orderId w
     = (Throw (Error "Invoice not found for archiving."), w')
   ∧ trace w' = trace w ++ [sent cfg query GET VUndef])
  ∧ ∃ (archivedInvoice : value) (lw1 lw2 : @world ledger_remote),
      @archiveInvoice ledger_remote cfg storeId orderId lw = (Ok archivedInvoice, lw1)
      ∧ @archiveInvoice ledger_remote cfg storeId orderId lw1
        = (Throw (Error "Invoice not found for archiving."), lw2)
      ∧ server lw2 = server lw1
      ∧ archive_posts (trace lw2) = archive_posts (trace lw1).
Proof.
  intros query Hrq Hnone Honly Ha Hid. split.
  - pose proof (getInvoiceByOrderId_none cfg _ _ _ _ _ Hrq Hnone) as Hget.
    split_and!.
    + unfold updateInvoice. by rewrite (bind_ok _ _ _ _ _ Hget).
    + unfold archiveInvoice. by rewrite (bind_ok _ _ _ _ _ Hget).
    + rewrite request_sent in Hrq. by injection Hrq as _ <-.
  - set (qs := [("storeId", to_string storeId); ("orderId", to_string orderId)]) in *.
    assert (i ∈ invoices (server lw) ∧ selects qs i = true) as [Hi Hsel]
      by (apply elem_of_filter_bool; rewrite Honly; by left).
    assert (inv_store i = to_string storeId) as Hstore.
    { subst qs. rewrite selects_order, andb_true_iff, !String.eqb_eq in Hsel.
      by destruct Hsel. }
    destruct (find_some_member (targets (inv_id i) (to_string storeId))
                (invoices (server lw)) i Hi) as [i' Hfind].
    { unfold targets. by rewrite Hstore, !String.eqb_refl. }
    assert (truthy (VStr (inv_id i)) = true) as Htruthy.
    { cbn [truthy]. apply negb_true_iff, String.eqb_neq, Hid. }
    eexists _, _, _. split_and!.
    + unfold archiveInvoice.
      erewrite bind_ok.
      2: { rewrite (getInvoiceByOrderId_list _ _ _ _ _ _ (request_listing cfg qs lw)).
           fold qs. rewrite Honly, find_r_ledger. cbn [List.find].
           unfold inv_active. rewrite Ha. cbn [negb from_option truthy invoice_json].
           reflexivity. }
      change (unwrapInvoice (invoice_json i)) with (doc_of i).
      rewrite doc_of_truthy, doc_of_btcpayId. cbn [negb]. unfold or_else.
      rewrite Htruthy. cbn [to_string].
      erewrite bind_ok; [|by apply request_archive]. reflexivity.
    + unfold archiveInvoice.
      erewrite bind_ok.
      2: { rewrite (getInvoiceByOrderId_list _ _ _ _ _ _ (request_listing cfg qs _)).
           cbn [logged server invoices]. fold qs.
           rewrite filter_selects_amend, Honly, find_r_ledger.
           cbn [amend map List.find].
           assert (targets (inv_id i) (to_string storeId) i = true) as ->.
           { unfold targets. by rewrite Hstore, !String.eqb_refl. }
           reflexivity. }
      reflexivity.
    + done.
    + cbn [logged trace]. rewrite archive_posts_app. cbn. by rewrite app_nil_r.
Qed.

Lemma missing_invoice_not_found_witness :
  let R := fixed_remote (Ok (VArr (take 1 demo_response))) in
  let w : @world R := start () in
  fst (@updateInvoice R demo_config (VStr "U") (VStr "u1") (VObj demo_user) w)
  = Throw (Error "Invoice not found for update.")
  ∧ fst (@archiveInvoice R demo_config (VStr "U") (VStr "u1") w)
    = Throw (Error "Invoice not found for archiving.")
  ∧ ∃ r lw1,
      archiveInvoice demo_config (VStr "U") (VStr "u1") demo_world = (Ok r, lw1)
      ∧ fst (archiveInvoice demo_config (VStr "U") (VStr "u1") lw1)
        = Throw (Error "Invoice not found for archiving.").
Proof.
  intros R w.
  destruct (missing_invoice_not_found R demo_config (VStr "U") (VStr "u1")
              (VObj demo_user) (VArr (take 1 demo_response)) w _ demo_world
              demo_user_invoice eq_refl eq_refl eq_refl eq_refl)
    as [(Hupdate & Harchive & _) (r & lw1 & lw2 & Hfirst & Hsecond & _)];
    [discriminate|].
  split_and!.
  - by rewrite Hupdate.
  - by rewrite Harchive.
  - exists r, lw1. by rewrite Hsecond.
Defined.

(** ** The adapter reads [metadata] off documents that are already unwrapped *)

Lemma unwrapInvoice_plain (inv : value) :
  plain inv = true → prop (unwrapInvoice inv) "metadata" = VUndef.
Proof.
  unfold plain, unwrapInvoice. destruct (truthy inv); [|done].
  destruct (own_props (prop inv "metadata") !! "metadata") eqn:Hm; [done|].
  intros _. cbn [prop own_props].
  rewrite lookup_insert_ne, lookup_union, Hm by done.
  by rewrite lookup_singleton_ne.
Qed.

Section plain_documents.
Context `{Remote} (cfg : client_config).

(** Whatever the store holds, as long as its documents have no field of
    their own called [metadata], [findDocumentByField] never returns a
    document: it returns [undefined] when the client finds one and null
    when it finds none. *)
Lemma findDocumentByField_plain store field v (l : list value) (w w' : world) :
  request cfg (Invoices [("storeId", to_string store)]) GET VUndef w
  = (Ok (VArr l), w') →
  forallb (λ inv, negb (nullish inv) && plain inv) l = true →
  ∃ r, findDocumentByField (BTCPayClient cfg) store field v w = (Ok r, w')
       ∧ truthy r = false
       ∧ (r = VUndef ↔
          List.find (field_matches field v) (map unwrapInvoice (List.filter active l))
          ≠ None).
Proof.
  intros Hrq Hl. rewrite forallb_forall in Hl.
  assert (Forall (λ inv, nullish inv = false) l) as Hobjects.
  { apply Forall_forall. intros inv Hin%list_elem_of_In.
    apply Hl in Hin. apply andb_true_iff in Hin as [Hn _].
    by apply negb_true_iff. }
  unfold findDocumentByField. cbn [c_findInvoiceByMetadata BTCPayClient].
  erewrite bind_ok.
  2: { apply findInvoiceByMetadata_listed.
       rewrite (listInvoices_list _ _ None _ _ _ Hrq).
       by rewrite (filter_r_objects _ Hobjects). }
  destruct (List.find _ _) as [doc|] eqn:Hfind.
  - apply find_some in Hfind as [Hin Hmatch].
    assert (truthy doc = true) as Htruthy.
    { unfold field_matches in Hmatch. by destruct (truthy doc). }
    apply in_map_iff in Hin as (inv & <- & Hinv).
    apply filter_In in Hinv as [Hinv _]. apply Hl in Hinv.
    apply andb_true_iff in Hinv as [_ Hplain].
    cbn [default from_option id]. unfold or_else. rewrite !Htruthy.
    rewrite (unwrapInvoice_plain _ Hplain). eexists. split; [done|]. by split_and!.
  - eexists. split; [done|]. cbn. split; [done|]. by split.
Qed.

Lemma getSessionAndUser_plain (a : Adapter) sessionToken (l : list value)
  (w w' : world) :
  auth_adapter cfg = Ok a →
  request cfg (Invoices [("storeId", to_string (sessionStoreId cfg))]) GET VUndef w
  = (Ok (VArr l), w') →
  forallb (λ inv, negb (nullish inv) && plain inv) l = true →
  getSessionAndUser a sessionToken w = (Ok VNull, w').
Proof.
  intros Hadapter Hrq Hl. apply auth_adapter_methods in Hadapter as ->.
  cbn [getSessionAndUser adapter_methods Sessions].
  destruct (findDocumentByField_plain _ "sessionToken" sessionToken _ _ _ Hrq Hl)
    as (r & Hfind & Hr & _).
  rewrite (bind_ok _ _ _ _ _ Hfind). by rewrite Hr.
Qed.

Lemma useVerificationToken_plain (a : Adapter) (data : value) (l : list value)
  (w w' : world) :
  auth_adapter cfg = Ok a →
  nullish data = false →
  request cfg (Invoices [("storeId", to_string (verificationTokenStoreId cfg))])
    GET VUndef w = (Ok (VArr l), w') →
  forallb (λ inv, negb (nullish inv) && plain inv) l = true →
  useVerificationToken a data w
  = (match List.find (field_matches "identifier" (prop data "identifier"))
             (map unwrapInvoice (List.filter active l)) with
     | Some _ => Throw TypeError
     | None => Ok VNull
     end, w').
Proof.
  intros Hadapter Hdata Hrq Hl. apply auth_adapter_methods in Hadapter as ->.
  cbn [useVerificationToken adapter_methods VerificationTokens].
  unfold get. rewrite Hdata. unfold lift at 1.
  erewrite bind_ok; [|reflexivity].
  rewrite forallb_forall in Hl.
  assert (Forall (λ inv, nullish inv = false) l) as Hobjects.
  { apply Forall_forall. intros inv Hin%list_elem_of_In.
    apply Hl in Hin. apply andb_true_iff in Hin as [Hn _].
    by apply negb_true_iff. }
  cbn [c_findInvoiceByMetadata BTCPayClient].
  erewrite bind_ok.
  2: { apply findInvoiceByMetadata_listed.
       rewrite (listInvoices_list _ _ None _ _ _ Hrq).
       by rewrite (filter_r_objects _ Hobjects). }
  destruct (List.find _ _) as [doc|] eqn:Hfind; [|done].
  apply find_some in Hfind as [Hin Hmatch].
  assert (truthy doc = true) as Htruthy.
  { unfold field_matches in Hmatch. by destruct (truthy doc). }
  apply in_map_iff in Hin as (inv & <- & Hinv).
  apply filter_In in Hinv as [Hinv _]. apply Hl in Hinv.
  apply andb_true_iff in Hinv as [_ Hplain].
  cbn [default from_option id]. unfold or_else. rewrite !Htruthy. cbn [negb].
  by rewrite (unwrapInvoice_plain _ Hplain).
Qed.

End plain_documents.

Section double_unwrap.
Local Existing Instance ledger_remote.

(** The client hands [getDocument] the unwrapped document, whose fields are
    those of the stored metadata; [getDocument] then returns the [metadata]
    field of that document, that is, a field of the stored document that
    happens to be called [metadata], or [undefined]. *)
Lemma getUser_metadata_field (cfg : client_config) (a : Adapter) (id : value)
  (w : world) (i : invoice) :
  auth_adapter cfg = Ok a →
  well_formed (invoices (server w)) = true →
  i ∈ invoices (server w) → inv_archived i = false →
  inv_store i = to_string (userStoreId cfg) → inv_orderId i = to_string id →
  fst (getUser a id w) = Ok (default VUndef (own_props (inv_metadata i) !! "metadata")).
Proof.
  intros Hadapter Hwf Hi Ha Hs Ho. apply auth_adapter_methods in Hadapter as ->.
  cbn [getUser adapter_methods Users]. unfold getDocument.
  cbn [c_getInvoiceByOrderId BTCPayClient].
  rewrite (bind_ok _ _ _ _ _ (getInvoiceByOrderId_ledger _ _ _ _ _ Hwf Hi Ha Hs Ho)).
  rewrite doc_of_truthy. cbn [mret M_ret fst]. f_equal.
  rewrite doc_of_fields. cbn [prop own_props].
  rewrite lookup_insert_ne, lookup_union by done.
  rewrite lookup_singleton_ne by done. by destruct (_ !! "metadata").
Qed.

(** C1, where the code departs from the claim. With the user
    [{id: "u1", email: "a@b.com"}] stored and active, the client finds the
    document (the stored one plus [btcpayId]) both by order id and by email,
    but [getUser("u1")] and [getUserByEmail("a@b.com")] return [undefined]
    instead of it. What the claim says of absent users does hold here: an
    unknown id gives null, and so does "u1" once the user is archived. *)
Theorem getUser_returns_undefined :
  fst (getInvoiceByOrderId demo_config (VStr "U") (VStr "u1") demo_world)
  = Ok (VObj (<["btcpayId" := VStr "inv0"]> demo_user))
  ∧ fst (findInvoiceByMetadata demo_config (VStr "U") "email" (VStr "a@b.com") demo_world)
    = Ok (VObj (<["btcpayId" := VStr "inv0"]> demo_user))
  ∧ fst (getUser demo_adapter (VStr "u1") demo_world) = Ok VUndef
  ∧ fst (getUserByEmail demo_adapter (VStr "a@b.com") demo_world) = Ok VUndef
  ∧ fst (getUser demo_adapter (VStr "u9") demo_world) = Ok VNull
  ∧ fst (getUser demo_adapter (VStr "u1")
           (snd (archiveInvoice demo_config (VStr "U") (VStr "u1") demo_world)))
    = Ok VNull.
Proof. split_and!; vm_compute; reflexivity. Qed.

(** C2, where the code departs from the claim. With the token record
    [{id: "t1", identifier: "a@b.com", token: "123"}] stored and active,
    [useVerificationToken] throws a [TypeError] both when the given token
    matches and when it differs, and archives nothing; only the case of an
    unknown identifier returns null as the claim says. *)
Theorem useVerificationToken_throws :
  let use identifier token :=
    useVerificationToken demo_adapter
      (VObj (<["identifier" := VStr identifier]> (<["token" := VStr token]> ∅)))
      demo_world in
  fst (use "a@b.com" "123") = Throw TypeError
  ∧ invoices (server (snd (use "a@b.com" "123"))) = invoices demo_ledger
  ∧ fst (use "a@b.com" "999") = Throw TypeError
  ∧ fst (use "x@y.com" "123") = Ok VNull.
Proof. split_and!; vm_compute; reflexivity. Qed.

(** C3, where the code departs from the claim. With the session
    [{id: "s1", sessionToken: "tok", userId: "u1"}] and its user "u1" both
    stored and active, the client finds the session by its token, yet
    [getSessionAndUser("tok")] returns null instead of the pair. *)
Theorem getSessionAndUser_returns_null :
  fst (findInvoiceByMetadata demo_config (VStr "S") "sessionToken" (VStr "tok") demo_world)
  = Ok (VObj (<["btcpayId" := VStr "inv1"]> demo_session))
  ∧ fst (getInvoiceByOrderId demo_config (VStr "U") (VStr "u1") demo_world)
    = Ok (VObj (<["btcpayId" := VStr "inv0"]> demo_user))
  ∧ fst (getSessionAndUser demo_adapter (VStr "tok") demo_world) = Ok VNull
  ∧ fst (getSessionAndUser demo_adapter (VStr "nope") demo_world) = Ok VNull.
Proof. split_and!; vm_compute; reflexivity. Qed.

End double_unwrap.

(** * Further properties of the client and the adapter *)

Lemma strip_trailing_slashes_empty (s : string) :
  strip_trailing_slashes s = EmptyString ↔ only_slashes s = true.
Proof.
  induction s as [|c s IH]; [done|].
  cbn [strip_trailing_slashes only_slashes].
  destruct (Ascii.eqb c "/") eqn:Hc; cbn [andb].
  - destruct (String.eqb (strip_trailing_slashes s) "") eqn:Hr.
    + apply String.eqb_eq in Hr. split; [intros _; by apply IH|done].
    + apply String.eqb_neq in Hr. split; [done|]. intros Hs. by apply IH in Hs.
  - split; discriminate.
Qed.

Lemma strip_trailing_slashes_split (s : string) :
  ∃ slashes, s = strip_trailing_slashes s +:+ slashes ∧ only_slashes slashes = true.
Proof.
  induction s as [|c s (slashes & Hs & Hslashes)]; [by exists EmptyString|].
  cbn [strip_trailing_slashes].
  destruct (Ascii.eqb c "/" && String.eqb (strip_trailing_slashes s) "") eqn:Hc.
  - apply andb_true_iff in Hc as [Hc Hr].
    apply String.eqb_eq, strip_trailing_slashes_empty in Hr.
    exists (String c s). split; [done|]. cbn [only_slashes]. by rewrite Hc, Hr.
  - exists slashes. split; [|done].
    change (String c ?a +:+ ?b) with (String c (a +:+ b)). by rewrite <- Hs.
Qed.

Lemma strip_trailing_slashes_end (s : string) :
  ends_with_slash (strip_trailing_slashes s) = false.
Proof.
  induction s as [|c s IH]; [done|].
  cbn [strip_trailing_slashes].
  destruct (Ascii.eqb c "/") eqn:Hc; cbn [andb].
  - destruct (String.eqb (strip_trailing_slashes s) "") eqn:Hr; [done|].
    apply String.eqb_neq in Hr. cbn [ends_with_slash].
    by destruct (strip_trailing_slashes s).
  - cbn [ends_with_slash]. destruct (strip_trailing_slashes s) eqn:Hs; [|done].
    done.
Qed.

Lemma strip_trailing_slashes_fixed (s : string) :
  ends_with_slash s = false → strip_trailing_slashes s = s.
Proof.
  induction s as [|c s IH]; [done|].
  cbn [strip_trailing_slashes ends_with_slash]. destruct s as [|c' s].
  - intros ->. done.
  - intros Hs. rewrite (IH Hs). by rewrite andb_false_r.
Qed.

(** X1. The base of every URL is the configured [baseUrl] with its trailing
    slashes removed: what is cut off is a run of slashes at the end and
    nothing else, the result ends in no slash, and stripping it again
    changes nothing. *)
Theorem baseUrl_trailing_slashes (s : string) :
  (∃ slashes, s = strip_trailing_slashes s +:+ slashes ∧ only_slashes slashes = true)
  ∧ ends_with_slash (strip_trailing_slashes s) = false
  ∧ strip_trailing_slashes (strip_trailing_slashes s) = strip_trailing_slashes s.
Proof.
  split_and!.
  - apply strip_trailing_slashes_split.
  - apply strip_trailing_slashes_end.
  - apply strip_trailing_slashes_fixed, strip_trailing_slashes_end.
Qed.

(** X2. Wrapping twice is wrapping once, so a payload that is already wrapped
    passes through. A value that is not a truthy object passes through as it
    is, and so does any value whose [metadata] is truthy. *)
Theorem wrapPayload_idempotent (doc : value) :
  wrapPayload (wrapPayload doc) = wrapPayload doc
  ∧ (truthy doc && typeof_object doc = false → wrapPayload doc = doc)
  ∧ (truthy (prop doc "metadata") = true → wrapPayload doc = doc).
Proof.
  split_and!.
  - unfold wrapPayload at 2 3.
    destruct (truthy doc && typeof_object doc && negb (truthy (prop doc "metadata")))
      eqn:Hwrap; [|unfold wrapPayload; by rewrite Hwrap].
    apply andb_true_iff in Hwrap as [[Hdoc _]%andb_true_iff _].
    unfold wrapPayload. cbn [truthy typeof_object prop own_props andb].
    lookups. cbn [default from_option id]. rewrite Hdoc. reflexivity.
  - intros Hdoc. unfold wrapPayload. by rewrite Hdoc.
  - intros Hmeta. unfold wrapPayload. by rewrite Hmeta, andb_false_r.
Qed.

(** X3. In the unwrapped document, [btcpayId] is always the invoice's own
    [id], even when the metadata has a field of that name; [id] is the
    metadata's [id] when it has one and the [orderId] otherwise; every other
    field comes from the metadata. *)
Theorem unwrapInvoice_precedence (invoice : value) :
  truthy invoice = true →
  prop (unwrapInvoice invoice) "btcpayId" = prop invoice "id"
  ∧ prop (unwrapInvoice invoice) "id"
    = default (prop invoice "orderId") (own_props (prop invoice "metadata") !! "id")
  ∧ (∀ k, k ≠ "id" → k ≠ "btcpayId" →
          prop (unwrapInvoice invoice) k
          = default VUndef (own_props (prop invoice "metadata") !! k)).
Proof.
  intros Hinv. unfold unwrapInvoice. rewrite Hinv. cbn [prop own_props].
  split_and!.
  - by lookups.
  - rewrite lookup_insert_ne, lookup_union by done. lookups.
    by destruct (own_props (prop invoice "metadata") !! "id").
  - intros k Hid Hbtc. rewrite lookup_insert_ne, lookup_union by done.
    rewrite lookup_singleton_ne by done.
    by destruct (own_props (prop invoice "metadata") !! k).
Qed.

Lemma unwrapInvoice_precedence_witness :
  let invoice :=
    VObj (<["id" := VStr "inv9"]> (<["orderId" := VStr "order"]>
         (<["metadata" := VObj (<["id" := VStr "inner"]>
                               (<["btcpayId" := VStr "stale"]> ∅))]> ∅))) in
  prop (unwrapInvoice invoice) "btcpayId" = VStr "inv9"
  ∧ prop (unwrapInvoice invoice) "id" = VStr "inner".
Proof.
  intros invoice.
  destruct (unwrapInvoice_precedence invoice eq_refl) as (-> & -> & _).
  split; reflexivity.
Defined.

(** ** What the operations send *)

Section sending.
Context `{Remote} (P : http_request → Prop).

Lemma sends_ret {A : Type} (a : A) : sends P (mret a).
Proof. intros w. exists []. by rewrite app_nil_r. Qed.

Lemma sends_throw {A : Type} (e : exn) : sends P (throw (A:=A) e).
Proof. intros w. exists []. by rewrite app_nil_r. Qed.

Lemma sends_lift {A : Type} (r : result A) : sends P (lift r).
Proof. intros w. exists []. by rewrite app_nil_r. Qed.

Lemma sends_bind {A B : Type} (m : M A) (f : A → M B) :
  sends P m → (∀ a, sends P (f a)) → sends P (m ≫= f).
Proof.
  intros Hm Hf w. destruct (Hm w) as (rqs1 & Ht1 & HP1).
  unfold mbind, M_bind. destruct (m w) as [[a|e] w1]; cbn [snd] in *.
  - destruct (Hf a w1) as (rqs2 & Ht2 & HP2). exists (rqs1 ++ rqs2).
    rewrite Ht2, Ht1, app_assoc. split; [done|]. by apply Forall_app.
  - by exists rqs1.
Qed.

Lemma sends_request (cfg : client_config) path method body :
  P (sent cfg path method body) → sends P (request cfg path method body).
Proof.
  intros HP w. rewrite request_sent. cbn [snd trace]. eexists. split; [done|].
  by constructor.
Qed.

Lemma sends_generateId : sends P generateId.
Proof. intros w. exists []. by rewrite app_nil_r. Qed.

End sending.

Ltac sends_steps :=
  repeat first
    [ apply sends_ret | apply sends_throw | apply sends_lift | apply sends_generateId
    | apply sends_request
    | apply sends_bind; [|intros ?]
    | match goal with
      | |- sends _ (if ?b then _ else _) => destruct b
      | |- sends _ (match ?v with _ => _ end) => destruct v
      end ].

Section client_sending.
Context `{Remote} (cfg : client_config) (P : http_request → Prop).

Lemma getInvoiceByOrderId_sends storeId orderId :
  (∀ path, P (sent cfg path GET VUndef)) →
  sends P (getInvoiceByOrderId cfg storeId orderId).
Proof. intros P_get. unfold getInvoiceByOrderId. sends_steps; apply P_get. Qed.

Lemma listInvoices_sends storeId queryParams :
  (∀ path, P (sent cfg path GET VUndef)) →
  sends P (listInvoices cfg storeId queryParams).
Proof. intros P_get. unfold listInvoices. sends_steps; apply P_get. Qed.

Lemma findInvoiceByMetadata_sends storeId key v :
  (∀ path, P (sent cfg path GET VUndef)) →
  sends P (findInvoiceByMetadata cfg storeId key v).
Proof.
  intros P_get. unfold findInvoiceByMetadata.
  apply sends_bind; [by apply listInvoices_sends|].
  intros invoices. apply sends_ret.
Qed.

Lemma getDocument_sends store id :
  (∀ path, P (sent cfg path GET VUndef)) →
  sends P (getDocument (BTCPayClient cfg) store id).
Proof.
  intros P_get. unfold getDocument. cbn [c_getInvoiceByOrderId BTCPayClient].
  apply sends_bind; [by apply getInvoiceByOrderId_sends|].
  intros invoice. apply sends_ret.
Qed.

Lemma findDocumentByField_sends store field v :
  (∀ path, P (sent cfg path GET VUndef)) →
  sends P (findDocumentByField (BTCPayClient cfg) store field v).
Proof.
  intros P_get. unfold findDocumentByField. cbn [c_findInvoiceByMetadata BTCPayClient].
  apply sends_bind; [by apply findInvoiceByMetadata_sends|].
  intros invoice. apply sends_ret.
Qed.

Lemma getSessionAndUser_sends storeIds sessionToken :
  (∀ path, P (sent cfg path GET VUndef)) →
  sends P (getSessionAndUser (adapter_methods (BTCPayClient cfg) storeIds) sessionToken).
Proof.
  intros P_get. cbn [getSessionAndUser adapter_methods].
  apply sends_bind; [by apply findDocumentByField_sends|]. intros session.
  destruct (negb (truthy session)); [apply sends_ret|].
  apply sends_bind; [by apply getDocument_sends|]. intros user. apply sends_ret.
Qed.

Section writes.
Hypothesis P_any : ∀ path method body, P (sent cfg path method body).

Lemma createInvoice_sends storeId doc : sends P (createInvoice cfg storeId doc).
Proof using P_any. unfold createInvoice. sends_steps; apply P_any. Qed.

Lemma updateInvoice_sends storeId orderId doc :
  sends P (updateInvoice cfg storeId orderId doc).
Proof using P_any.
  unfold updateInvoice. apply sends_bind; [by apply getInvoiceByOrderId_sends|].
  intros existingInvoice. sends_steps; apply P_any.
Qed.

Lemma archiveInvoice_sends storeId orderId :
  sends P (archiveInvoice cfg storeId orderId).
Proof using P_any.
  unfold archiveInvoice. apply sends_bind; [by apply getInvoiceByOrderId_sends|].
  intros existingInvoice. sends_steps; apply P_any.
Qed.

Lemma archive_each_sends storeId docs : sends P (archive_each cfg storeId docs).
Proof using P_any.
  induction docs as [|doc docs IH]; cbn [archive_each]; [apply sends_ret|].
  apply sends_bind; [apply archiveInvoice_sends|]. intros archived.
  apply sends_bind; [apply IH|]. intros results. apply sends_ret.
Qed.

Lemma archiveInvoicesByMetadata_sends storeId key v :
  sends P (archiveInvoicesByMetadata cfg storeId key v).
Proof using P_any.
  unfold archiveInvoicesByMetadata. apply sends_bind; [by apply listInvoices_sends|].
  intros invoices. apply archive_each_sends.
Qed.

Lemma createDocument_sends store data :
  sends P (createDocument (BTCPayClient cfg) store data).
Proof using P_any.
  unfold createDocument. cbn [c_createInvoice BTCPayClient].
  apply sends_bind.
  - destruct (negb _); [|apply sends_ret].
    apply sends_bind; [apply sends_generateId|]. intros id. apply sends_ret.
  - intros data'. apply sends_bind; [apply createInvoice_sends|].
    intros _. apply sends_ret.
Qed.

Lemma updateDocument_sends store id data :
  sends P (updateDocument (BTCPayClient cfg) store id data).
Proof using P_any.
  unfold updateDocument. cbn [c_updateInvoice BTCPayClient].
  apply sends_bind; [apply updateInvoice_sends|]. intros updated. apply sends_lift.
Qed.

Lemma adapter_methods_send (storeIds : store_ids) :
  let a := adapter_methods (BTCPayClient cfg) storeIds in
  (∀ data, sends P (createUser a data))
  ∧ (∀ id, sends P (getUser a id))
  ∧ (∀ email, sends P (getUserByEmail a email))
  ∧ (∀ data, sends P (getUserByAccount a data))
  ∧ (∀ data, sends P (updateUser a data))
  ∧ (∀ id, sends P (deleteUser a id))
  ∧ (∀ data, sends P (linkAccount a data))
  ∧ (∀ data, sends P (unlinkAccount a data))
  ∧ (∀ sessionToken, sends P (getSessionAndUser a sessionToken))
  ∧ (∀ data, sends P (createSession a data))
  ∧ (∀ data, sends P (updateSession a data))
  ∧ (∀ sessionToken, sends P (deleteSession a sessionToken))
  ∧ (∀ data, sends P (createVerificationToken a data))
  ∧ (∀ data, sends P (useVerificationToken a data)).
Proof using P_any.
  assert (∀ path, P (sent cfg path GET VUndef)) as P_get by (intros; apply P_any).
  intros a. subst a. cbn [adapter_methods createUser getUser getUserByEmail
    getUserByAccount updateUser deleteUser linkAccount unlinkAccount
    getSessionAndUser createSession updateSession deleteSession
    createVerificationToken useVerificationToken].
  unfold deleteDocument. cbn [c_archiveInvoice c_archiveInvoicesByMetadata
    c_findInvoiceByMetadata BTCPayClient].
  split_and!; intros x;
    repeat first
      [ apply sends_ret | apply sends_throw | apply sends_lift
      | apply createDocument_sends | by apply getDocument_sends
      | by apply findDocumentByField_sends | apply updateDocument_sends
      | apply archiveInvoice_sends | apply archiveInvoicesByMetadata_sends
      | by apply findInvoiceByMetadata_sends
      | apply sends_bind; [|intros ?]
      | match goal with
        | |- sends _ (if ?b then _ else _) => destruct b
        end ].
Qed.

End writes.
End client_sending.

Lemma sent_credentialed (cfg : client_config) path method body :
  credentialed cfg (sent cfg path method body).
Proof. done. Qed.

(** X4. The read operations never send anything but GET requests: the three
    reads of the client, and [getUser], [getUserByEmail], [getUserByAccount]
    and [getSessionAndUser] of the adapter, whatever the remote answers. *)
Theorem reads_send_only_get `{Remote} (cfg : client_config) (a : Adapter) :
  auth_adapter cfg = Ok a →
  let get_only rq := rq_method rq = GET in
  (∀ storeId orderId, sends get_only (getInvoiceByOrderId cfg storeId orderId))
  ∧ (∀ storeId queryParams, sends get_only (listInvoices cfg storeId queryParams))
  ∧ (∀ storeId key v, sends get_only (findInvoiceByMetadata cfg storeId key v))
  ∧ (∀ id, sends get_only (getUser a id))
  ∧ (∀ email, sends get_only (getUserByEmail a email))
  ∧ (∀ data, sends get_only (getUserByAccount a data))
  ∧ (∀ sessionToken, sends get_only (getSessionAndUser a sessionToken)).
Proof.
  intros Hadapter get_only. apply auth_adapter_methods in Hadapter as ->.
  assert (∀ path, get_only (sent cfg path GET VUndef)) as Hget by done.
  split_and!; intros.
  - by apply getInvoiceByOrderId_sends.
  - by apply listInvoices_sends.
  - by apply findInvoiceByMetadata_sends.
  - by apply getDocument_sends.
  - by apply findDocumentByField_sends.
  - apply sends_ret.
  - by apply getSessionAndUser_sends.
Qed.

Lemma reads_send_only_get_witness :
  ∃ rqs, trace (snd (getSessionAndUser demo_adapter (VStr "tok") demo_world))
         = trace demo_world ++ rqs
         ∧ Forall (λ rq, rq_method rq = GET) rqs.
Proof.
  destruct (@reads_send_only_get ledger_remote demo_config demo_adapter eq_refl)
    as (_ & _ & _ & _ & _ & _ & Hsession).
  apply Hsession.
Defined.

(** X5. Every operation of the client and every method of the adapter only
    adds requests to the log, and each request it adds goes to the configured
    base URL (trailing slashes removed) with the header
    [Authorization: token <apiKey>]. *)
Theorem requests_carry_credentials `{Remote} (cfg : client_config) (a : Adapter) :
  auth_adapter cfg = Ok a →
  ((∀ storeId doc, sends (credentialed cfg) (createInvoice cfg storeId doc))
   ∧ (∀ storeId orderId, sends (credentialed cfg) (getInvoiceByOrderId cfg storeId orderId))
   ∧ (∀ storeId orderId doc,
        sends (credentialed cfg) (updateInvoice cfg storeId orderId doc))
   ∧ (∀ storeId orderId, sends (credentialed cfg) (archiveInvoice cfg storeId orderId))
   ∧ (∀ storeId queryParams,
        sends (credentialed cfg) (listInvoices cfg storeId queryParams))
   ∧ (∀ storeId key v, sends (credentialed cfg) (findInvoiceByMetadata cfg storeId key v))
   ∧ (∀ storeId key v,
        sends (credentialed cfg) (archiveInvoicesByMetadata cfg storeId key v)))
  ∧ ((∀ data, sends (credentialed cfg) (createUser a data))
     ∧ (∀ id, sends (credentialed cfg) (getUser a id))
     ∧ (∀ email, sends (credentialed cfg) (getUserByEmail a email))
     ∧ (∀ data, sends (credentialed cfg) (getUserByAccount a data))
     ∧ (∀ data, sends (credentialed cfg) (updateUser a data))
     ∧ (∀ id, sends (credentialed cfg) (deleteUser a id))
     ∧ (∀ data, sends (credentialed cfg) (linkAccount a data))
     ∧ (∀ data, sends (credentialed cfg) (unlinkAccount a data))
     ∧ (∀ sessionToken, sends (credentialed cfg) (getSessionAndUser a sessionToken))
     ∧ (∀ data, sends (credentialed cfg) (createSession a data))
     ∧ (∀ data, sends (credentialed cfg) (updateSession a data))
     ∧ (∀ sessionToken, sends (credentialed cfg) (deleteSession a sessionToken))
     ∧ (∀ data, sends (credentialed cfg) (createVerificationToken a data))
     ∧ (∀ data, sends (credentialed cfg) (useVerificationToken a data))).
Proof.
  intros Hadapter. apply auth_adapter_methods in Hadapter as ->.
  pose proof (sent_credentialed cfg) as Hsent.
  split.
  - split_and!; intros.
    + by apply createInvoice_sends.
    + by apply getInvoiceByOrderId_sends.
    + by apply updateInvoice_sends.
    + by apply archiveInvoice_sends.
    + by apply listInvoices_sends.
    + by apply findInvoiceByMetadata_sends.
    + by apply archiveInvoicesByMetadata_sends.
  - by apply adapter_methods_send.
Qed.

Lemma requests_carry_credentials_witness :
  ∃ rqs, trace (snd (deleteUser demo_adapter (VStr "u1") demo_world))
         = trace demo_world ++ rqs
         ∧ Forall (credentialed demo_config) rqs.
Proof.
  destruct (@requests_carry_credentials ledger_remote demo_config demo_adapter eq_refl)
    as (_ & _ & _ & _ & _ & _ & Hdelete & _).
  apply Hdelete.
Defined.

(** ** Resolving an invoice before changing it *)

Lemma unwrapInvoice_btcpayId (inv : value) :
  truthy inv = true → prop (unwrapInvoice inv) "btcpayId" = prop inv "id".
Proof.
  intros Hinv. unfold unwrapInvoice. rewrite Hinv. cbn [prop own_props]. by lookups.
Qed.

Lemma unwrapInvoice_id (inv : value) :
  truthy inv = true →
  prop (unwrapInvoice inv) "id"
  = default (prop inv "orderId") (own_props (prop inv "metadata") !! "id").
Proof.
  intros Hinv. unfold unwrapInvoice. rewrite Hinv. cbn [prop own_props].
  rewrite lookup_insert_ne, lookup_union by done. lookups.
  by destruct (own_props (prop inv "metadata") !! "id").
Qed.

Lemma unwrapInvoice_field (inv : value) (k : string) :
  truthy inv = true → k ≠ "id" → k ≠ "btcpayId" →
  prop (unwrapInvoice inv) k = default VUndef (own_props (prop inv "metadata") !! k).
Proof.
  intros Hinv Hid Hbtc. unfold unwrapInvoice. rewrite Hinv. cbn [prop own_props].
  rewrite lookup_insert_ne, lookup_union by done.
  rewrite lookup_singleton_ne by done.
  by destruct (own_props (prop inv "metadata") !! k).
Qed.

Lemma unwrapInvoice_truthy (inv : value) :
  truthy (unwrapInvoice inv) = truthy inv.
Proof. unfold unwrapInvoice. by destruct (truthy inv). Qed.

Section resolving.
Context `{Remote} (cfg : client_config).

Lemma getInvoiceByOrderId_found storeId orderId (l : list value) (inv : value)
  (w w1 : world) :
  request cfg (Invoices [("storeId", to_string storeId); ("orderId", to_string orderId)])
    GET VUndef w = (Ok (VArr l), w1) →
  find_r not_archived l = Ok inv → truthy inv = true →
  getInvoiceByOrderId cfg storeId orderId w = (Ok (unwrapInvoice inv), w1).
Proof.
  intros Hrq Hfind Hinv. rewrite (getInvoiceByOrderId_list _ _ _ _ _ _ Hrq).
  by rewrite Hfind, Hinv.
Qed.

Lemma address_of_unwrapped (inv : value) :
  truthy inv = true →
  to_string (or_else (prop (unwrapInvoice inv) "btcpayId") (prop (unwrapInvoice inv) "id"))
  = address_of inv.
Proof.
  intros Hinv. unfold address_of.
  by rewrite unwrapInvoice_btcpayId, unwrapInvoice_id.
Qed.

(** X6. Once the order-id query has found an active invoice, [updateInvoice]
    and [archiveInvoice] send one POST addressed to that invoice and return
    the unwrapped response, or the error of that request. The address is the
    invoice's processor [id]; when that is falsy it falls back to the
    document's [id] (the metadata's, else the [orderId]). *)
Theorem mutations_address_resolved_invoice storeId orderId doc (l : list value)
  (inv : value) (w w1 : world) :
  request cfg (Invoices [("storeId", to_string storeId); ("orderId", to_string orderId)])
    GET VUndef w = (Ok (VArr l), w1) →
  find_r not_archived l = Ok inv → truthy inv = true →
  let update := sent cfg (Invoice (address_of inv) (to_string storeId)) POST
                  (wrapPayload doc) in
  let archive := sent cfg (InvoiceArchive (address_of inv) (to_string storeId)) POST
                   VUndef in
  updateInvoice cfg storeId orderId doc w
  = (match fst (fetch update (server w1)) with
     | Ok r => Ok (unwrapInvoice r)
     | Throw e => Throw e
     end, logged [update] (snd (fetch update (server w1))) w1)
  ∧ archiveInvoice cfg storeId orderId w
    = (match fst (fetch archive (server w1)) with
       | Ok r => Ok (unwrapInvoice r)
       | Throw e => Throw e
       end, logged [archive] (snd (fetch archive (server w1))) w1)
  ∧ (truthy (prop inv "id") = true → address_of inv = to_string (prop inv "id"))
  ∧ (truthy (prop inv "id") = false →
     address_of inv = to_string (default (prop inv "orderId")
                                   (own_props (prop inv "metadata") !! "id"))).
Proof.
  intros Hrq Hfind Hinv update archive.
  pose proof (getInvoiceByOrderId_found _ _ _ _ _ _ Hrq Hfind Hinv) as Hget.
  split_and!.
  - unfold updateInvoice. rewrite (bind_ok _ _ _ _ _ Hget).
    rewrite unwrapInvoice_truthy, Hinv. cbn [negb].
    rewrite (address_of_unwrapped _ Hinv). fold update.
    unfold mbind, M_bind, mret, M_ret. rewrite request_sent. fold update.
    unfold logged. by destruct (fetch update (server w1)) as [[r|e] s].
  - unfold archiveInvoice. rewrite (bind_ok _ _ _ _ _ Hget).
    rewrite unwrapInvoice_truthy, Hinv. cbn [negb].
    rewrite (address_of_unwrapped _ Hinv). fold archive.
    unfold mbind, M_bind, mret, M_ret. rewrite request_sent. fold archive.
    unfold logged. by destruct (fetch archive (server w1)) as [[r|e] s].
  - intros Hid. unfold address_of, or_else. by rewrite Hid.
  - intros Hid. unfold address_of, or_else. by rewrite Hid.
Qed.

End resolving.

Lemma mutations_address_resolved_invoice_witness :
  let R := fixed_remote
             (Ok (VArr [VObj (<["id" := VStr ""]> (<["orderId" := VStr "u1"]>
                              (<["metadata" := VObj demo_user]> ∅)))])) in
  let w : @world R := start () in
  map rq_path (trace (snd (@archiveInvoice R demo_config (VStr "U") (VStr "u1") w)))
  = [Invoices [("storeId", "U"); ("orderId", "u1")]; InvoiceArchive "u1" "U"].
Proof.
  intros R w.
  destruct (@mutations_address_resolved_invoice R demo_config (VStr "U") (VStr "u1")
              VUndef _ _ w _ eq_refl eq_refl eq_refl) as (_ & -> & _).
  reflexivity.
Defined.

(** ** Errors and empty cases of the adapter *)

Section adapter_edges.
Context `{Remote} (cfg : client_config).

(** X7. When the session documents have no field of their own called
    [metadata], [deleteSession] returns null after the listing request alone:
    it never sends an archive request, whether or not a session has the
    token. *)
Theorem deleteSession_archives_nothing (a : Adapter) sessionToken (l : list value)
  (w w' : world) :
  auth_adapter cfg = Ok a →
  request cfg (Invoices [("storeId", to_string (sessionStoreId cfg))]) GET VUndef w
  = (Ok (VArr l), w') →
  forallb (λ inv, negb (nullish inv) && plain inv) l = true →
  deleteSession a sessionToken w = (Ok VNull, w')
  ∧ trace w' = trace w ++ [sent cfg (Invoices [("storeId", to_string (sessionStoreId cfg))])
                             GET VUndef].
Proof.
  intros Hadapter Hrq Hl. apply auth_adapter_methods in Hadapter as ->.
  cbn [deleteSession adapter_methods Sessions].
  destruct (findDocumentByField_plain _ _ "sessionToken" sessionToken _ _ _ Hrq Hl)
    as (r & Hfind & Hr & _).
  rewrite (bind_ok _ _ _ _ _ Hfind), Hr. split; [done|].
  rewrite request_sent in Hrq. by injection Hrq as _ <-.
Qed.

(** X8. [deleteUser] on an id with no active user invoice throws the
    "not found" error of [archiveInvoice] after the one query: the cascade
    over sessions and verification tokens does not start. *)
Theorem deleteUser_unknown_user (a : Adapter) (id response : value) (w w' : world) :
  auth_adapter cfg = Ok a →
  request cfg (Invoices [("storeId", to_string (userStoreId cfg));
                         ("orderId", to_string id)]) GET VUndef w
  = (Ok response, w') →
  no_active response = true →
  deleteUser a id w = (Throw (Error "Invoice not found for archiving."), w')
  ∧ trace w' = trace w ++ [sent cfg (Invoices [("storeId", to_string (userStoreId cfg));
                                                ("orderId", to_string id)]) GET VUndef].
Proof.
  intros Hadapter Hrq Hnone. apply auth_adapter_methods in Hadapter as ->.
  cbn [deleteUser adapter_methods Users]. unfold deleteDocument.
  cbn [c_archiveInvoice BTCPayClient].
  pose proof (getInvoiceByOrderId_none cfg _ _ _ _ _ Hrq Hnone) as Hget.
  split.
  - erewrite bind_throw; [done|]. unfold archiveInvoice.
    by rewrite (bind_ok _ _ _ _ _ Hget).
  - rewrite request_sent in Hrq. by injection Hrq as _ <-.
Qed.

(** X9. [updateUser] and [updateSession] on data without a truthy [id]
    throw their "must have an id" error, or a [TypeError] when the data is
    null or undefined, and send no request. *)
Theorem update_requires_id (a : Adapter) (data : value) (w : world) :
  auth_adapter cfg = Ok a →
  truthy (prop data "id") = false →
  updateUser a data w
  = (if nullish data then Throw TypeError
     else Throw (Error "User must have an id to update."), w)
  ∧ updateSession a data w
    = (if nullish data then Throw TypeError
       else Throw (Error "Session must have an id to update."), w).
Proof.
  intros Hadapter Hid. apply auth_adapter_methods in Hadapter as ->.
  cbn [updateUser updateSession adapter_methods]. unfold get, lift, mbind, M_bind.
  destruct (nullish data); [done|]. by rewrite Hid.
Qed.

(** X10. [updateUser] on a found user sends the body [{metadata: data}],
    the data as given with nothing merged in from the stored document, and
    returns the [metadata] field of the unwrapped response: a field of the
    echoed document, not the document. A falsy response makes it throw a
    [TypeError]. *)
Theorem updateUser_replaces_metadata (a : Adapter) (data : obj) (l : list value)
  (inv r : value) (w w1 w2 : world) :
  auth_adapter cfg = Ok a →
  truthy (prop (VObj data) "id") = true →
  request cfg (Invoices [("storeId", to_string (userStoreId cfg));
                         ("orderId", to_string (prop (VObj data) "id"))]) GET VUndef w
  = (Ok (VArr l), w1) →
  find_r not_archived l = Ok inv → truthy inv = true →
  request cfg (Invoice (address_of inv) (to_string (userStoreId cfg))) POST
    (VObj {["metadata" := VObj data]}) w1 = (Ok r, w2) →
  updateUser a (VObj data) w
  = (if truthy r
     then Ok (default VUndef (own_props (prop r "metadata") !! "metadata"))
     else Throw TypeError, w2).
Proof.
  intros Hadapter Hid Hrq Hfind Hinv Hpost. apply auth_adapter_methods in Hadapter as ->.
  cbn [updateUser adapter_methods Users]. unfold get. cbn [nullish].
  unfold lift at 1. erewrite bind_ok; [|reflexivity]. rewrite Hid. cbn [negb].
  unfold updateDocument. cbn [c_updateInvoice BTCPayClient].
  assert (wrapPayload (VObj {["metadata" := VObj data]})
          = VObj {["metadata" := VObj data]}) as Hwrap.
  { unfold wrapPayload. cbn [truthy typeof_object prop own_props]. by lookups. }
  erewrite bind_ok.
  2: { unfold updateInvoice.
       rewrite (bind_ok _ _ _ _ _ (getInvoiceByOrderId_found _ _ _ _ _ _ _ Hrq Hfind Hinv)).
       rewrite unwrapInvoice_truthy, Hinv. cbn [negb].
       rewrite (address_of_unwrapped _ Hinv), Hwrap.
       by rewrite (bind_ok _ _ _ _ _ Hpost). }
  unfold lift, get. destruct (truthy r) eqn:Hr.
  - assert (nullish (unwrapInvoice r) = false) as ->.
    { unfold unwrapInvoice. by rewrite Hr. }
    by rewrite unwrapInvoice_field.
  - unfold unwrapInvoice. by rewrite Hr.
Qed.

End adapter_edges.

(** X11. Constructing the adapter, for any second argument: it throws a
    [TypeError] exactly when the options are null (the destructuring fails);
    it succeeds exactly when the options carry a truthy [storeIds] whose
    three identifiers are truthy (an empty string does not count); in every
    other case, omitted options included, it throws the configuration error.
    On an options object with its [storeIds] this is [BTCPayAdapter]. *)
Theorem adapter_needs_store_ids `{Remote} (c : Client) (options : value) :
  let storeIds := prop options "storeIds" in
  let complete := truthy storeIds && truthy (prop storeIds "Users")
                  && truthy (prop storeIds "Sessions")
                  && truthy (prop storeIds "VerificationTokens") in
  (BTCPayAdapter_called c options = Throw TypeError ↔ options = VNull)
  ∧ (∀ a, BTCPayAdapter_called c options = Ok a ↔
          options ≠ VNull ∧ complete = true
          ∧ a = adapter_methods c
                  {| Users := prop storeIds "Users";
                     Sessions := prop storeIds "Sessions";
                     VerificationTokens := prop storeIds "VerificationTokens" |})
  ∧ (options ≠ VNull → complete = false →
     BTCPayAdapter_called c options
     = Throw (Error "You must supply storeIds for Users, Sessions, and VerificationTokens."))
  ∧ (∀ ids, BTCPayAdapter_called c (options_object ids) = BTCPayAdapter c (Some ids))
  ∧ BTCPayAdapter_called c VUndef = BTCPayAdapter c None
  ∧ BTCPayAdapter_called c (VObj ∅) = BTCPayAdapter c None.
Proof.
  intros storeIds complete.
  assert (options ≠ VNull →
          BTCPayAdapter_called c options
          = if complete
            then Ok (adapter_methods c
                       {| Users := prop storeIds "Users";
                          Sessions := prop storeIds "Sessions";
                          VerificationTokens := prop storeIds "VerificationTokens" |})
            else Throw (Error "You must supply storeIds for Users, Sessions, and VerificationTokens."))
    as Hrun.
  { intros Hnull. subst complete storeIds. unfold BTCPayAdapter_called, get.
    destruct options; try done; cbn [nullish];
      by destruct (truthy _), (truthy _), (truthy _), (truthy _). }
  assert (options = VNull ∨ options ≠ VNull) as Hcase
    by (destruct options; first [by left|by right]).
  split_and!.
  - split; [|by intros ->].
    intros Hthrow. destruct Hcase as [|Hnull]; [done|].
    rewrite (Hrun Hnull) in Hthrow. by destruct complete.
  - intros a. split.
    + intros Hok. destruct Hcase as [->|Hnull]; [done|].
      rewrite (Hrun Hnull) in Hok. destruct complete; [|done].
      by injection Hok as <-.
    + intros (Hnull & Hcomplete & ->). by rewrite (Hrun Hnull), Hcomplete.
  - intros Hnull Hcomplete. by rewrite (Hrun Hnull), Hcomplete.
  - intros [users sessions tokens]. unfold BTCPayAdapter_called, options_object, get.
    cbn [nullish prop own_props BTCPayAdapter Users Sessions VerificationTokens].
    lookups. cbn [default from_option id truthy negb orb prop own_props]. by lookups.
  - done.
  - done.
Qed.

Lemma adapter_needs_store_ids_witness :
  @BTCPayAdapter_called ledger_remote (BTCPayClient demo_config)
    (VObj {["storeIds" := VObj {["Users" := VStr "U"]}]})
  = Throw (Error "You must supply storeIds for Users, Sessions, and VerificationTokens.")
  ∧ @BTCPayAdapter_called ledger_remote (BTCPayClient demo_config) VNull
    = Throw TypeError.
Proof.
  destruct (@adapter_needs_store_ids ledger_remote (BTCPayClient demo_config)
              (VObj {["storeIds" := VObj {["Users" := VStr "U"]}]}))
    as (_ & _ & Herror & _).
  destruct (@adapter_needs_store_ids ledger_remote (BTCPayClient demo_config) VNull)
    as ([_ Hnull] & _).
  split; [apply Herror; [done|reflexivity]|by apply Hnull].
Defined.

Lemma deleteSession_archives_nothing_witness :
  fst (deleteSession demo_adapter (VStr "tok") demo_world) = Ok VNull
  ∧ invoices (server (snd (deleteSession demo_adapter (VStr "tok") demo_world)))
    = invoices demo_ledger.
Proof.
  destruct (@deleteSession_archives_nothing ledger_remote demo_config demo_adapter
              (VStr "tok") _ demo_world _ eq_refl eq_refl) as [-> _].
  - vm_compute. reflexivity.
  - split; reflexivity.
Defined.

Lemma deleteUser_unknown_user_witness :
  fst (deleteUser demo_adapter (VStr "ghost") demo_world)
  = Throw (Error "Invoice not found for archiving.")
  ∧ invoices (server (snd (deleteUser demo_adapter (VStr "ghost") demo_world)))
    = invoices demo_ledger.
Proof.
  destruct (@deleteUser_unknown_user ledger_remote demo_config demo_adapter
              (VStr "ghost") _ demo_world _ eq_refl eq_refl) as [-> _].
  - reflexivity.
  - split; reflexivity.
Defined.

Lemma update_requires_id_witness :
  updateUser demo_adapter (VObj {["email" := VStr "a@b.com"]}) demo_world
  = (Throw (Error "User must have an id to update."), demo_world)
  ∧ updateSession demo_adapter VNull demo_world = (Throw TypeError, demo_world).
Proof.
  split.
  - destruct (@update_requires_id ledger_remote demo_config demo_adapter
                (VObj {["email" := VStr "a@b.com"]}) demo_world eq_refl)
      as [-> _]; reflexivity.
  - destruct (@update_requires_id ledger_remote demo_config demo_adapter
                VNull demo_world eq_refl) as [_ ->]; reflexivity.
Defined.

Lemma updateUser_replaces_metadata_witness :
  let data : obj := <["id" := VStr "u1"]> (<["name" := VStr "Ann"]> ∅) in
  fst (updateUser demo_adapter (VObj data) demo_world) = Ok VUndef
  ∧ map inv_metadata
      (List.filter (λ i, String.eqb (inv_store i) "U")
         (invoices (server (snd (updateUser demo_adapter (VObj data) demo_world)))))
    = [VObj data].
Proof.
  intros data.
  erewrite (@updateUser_replaces_metadata ledger_remote demo_config demo_adapter
              data _ (invoice_json demo_user_invoice)); try reflexivity.
  split; vm_compute; reflexivity.
Defined.

(** ** Bulk archiving *)

Lemma find_filter_head {A : Type} (p : A → bool) (l : list A) (x : A) :
  List.find p l = Some x → ∃ rest, List.filter p l = x :: rest.
Proof.
  induction l as [|y l IH]; [done|]. cbn [List.find List.filter].
  destruct (p y); [|done]. intros [= ->]. by eexists.
Qed.

Lemma filter_none {A : Type} (p : A → bool) (l : list A) :
  List.find p l = None → List.filter p l = [].
Proof.
  induction l as [|y l IH]; [done|]. cbn [List.find List.filter].
  by destruct (p y).
Qed.

Section bulk.
Context `{Remote} (cfg : client_config).

Lemma archive_each_app storeId (before after results : list value) (w w1 : world) :
  archive_each cfg storeId before w = (Ok results, w1) →
  archive_each cfg storeId (before ++ after) w
  = (archive_each cfg storeId after ≫= λ rest, mret (results ++ rest)) w1.
Proof.
  revert results w. induction before as [|doc before IH]; intros results w.
  - cbn [archive_each app]. intros [= <- <-].
    unfold mbind, M_bind, mret, M_ret.
    by destruct (archive_each cfg storeId after w) as [[rest|e] w'].
  - cbn [archive_each app]. intros Hrun.
    apply bind_inv_ok in Hrun as (archived & w0 & Harchive & Hrun).
    apply bind_inv_ok in Hrun as (results0 & w0' & Hbefore & Hrun).
    injection Hrun as <- <-.
    rewrite (bind_ok _ _ _ _ _ Harchive). unfold mbind at 1, M_bind at 1.
    rewrite (IH _ _ Hbefore). unfold mbind, M_bind, mret, M_ret.
    by destruct (archive_each cfg storeId after w0') as [[rest|e] w'].
Qed.

(** X12. The loop of [archiveInvoicesByMetadata] stops at the first document
    whose archiving fails: the error is returned, what was archived before
    stays archived, and the documents after it are not tried. *)
Theorem archive_each_stops_at_first_failure storeId (before after : list value)
  (doc : value) (results : list value) (e : exn) (w w1 w2 : world) :
  archive_each cfg storeId before w = (Ok results, w1) →
  archiveInvoice cfg storeId (prop doc "id") w1 = (Throw e, w2) →
  archive_each cfg storeId (before ++ doc :: after) w = (Throw e, w2).
Proof.
  intros Hbefore Hfail. rewrite (archive_each_app _ _ _ _ _ _ Hbefore).
  cbn [archive_each]. unfold mbind at 1, M_bind at 1.
  by rewrite (bind_throw _ _ _ _ _ Hfail).
Qed.

(** X13. When no active document of the store has the field equal to the
    value, [archiveInvoicesByMetadata] returns the empty list and
    [findInvoiceByMetadata] returns null, after the listing request alone. *)
Theorem archiveInvoicesByMetadata_no_match storeId key v (l : list value)
  (w w' : world) :
  request cfg (Invoices [("storeId", to_string storeId)]) GET VUndef w
  = (Ok (VArr l), w') →
  Forall (λ inv, nullish inv = false) l →
  List.find (field_matches key v) (map unwrapInvoice (List.filter active l)) = None →
  archiveInvoicesByMetadata cfg storeId key v w = (Ok [], w')
  ∧ findInvoiceByMetadata cfg storeId key v w = (Ok VNull, w')
  ∧ trace w' = trace w ++ [sent cfg (Invoices [("storeId", to_string storeId)])
                             GET VUndef].
Proof.
  intros Hrq Hl Hnone.
  assert (listInvoices cfg storeId None w
          = (Ok (map unwrapInvoice (List.filter active l)), w')) as Hlist.
  { rewrite (listInvoices_list _ _ None _ _ _ Hrq). by rewrite (filter_r_objects _ Hl). }
  split_and!.
  - unfold archiveInvoicesByMetadata. rewrite (bind_ok _ _ _ _ _ Hlist).
    by rewrite (filter_none _ _ Hnone).
  - rewrite (findInvoiceByMetadata_listed _ _ _ _ _ _ _ Hlist). by rewrite Hnone.
  - rewrite request_sent in Hrq. by injection Hrq as _ <-.
Qed.

(** X14. Searching for the value [undefined] finds a document that lacks
    the field: when the first active invoice of the listing has no such field
    in its metadata, [findInvoiceByMetadata(store, key, undefined)] returns
    it (for a key that is not a member of [Object.prototype]). *)
Theorem find_undefined_matches_missing_field storeId key (l : list value)
  (inv : value) (w w' : world) :
  request cfg (Invoices [("storeId", to_string storeId)]) GET VUndef w
  = (Ok (VArr l), w') →
  Forall (λ inv, nullish inv = false) l →
  List.find active l = Some inv → truthy inv = true →
  key ≠ "id" → key ≠ "btcpayId" → object_prototype_member key = false →
  own_props (prop inv "metadata") !! key = None →
  findInvoiceByMetadata cfg storeId key VUndef w = (Ok (unwrapInvoice inv), w').
Proof.
  intros Hrq Hl Hfind Hinv Hid Hbtc _ Hkey.
  assert (listInvoices cfg storeId None w
          = (Ok (map unwrapInvoice (List.filter active l)), w')) as Hlist.
  { rewrite (listInvoices_list _ _ None _ _ _ Hrq). by rewrite (filter_r_objects _ Hl). }
  rewrite (findInvoiceByMetadata_listed _ _ _ _ _ _ _ Hlist).
  destruct (find_filter_head _ _ _ Hfind) as [rest ->].
  cbn [map List.find]. unfold field_matches.
  rewrite unwrapInvoice_truthy, Hinv, unwrapInvoice_field, Hkey by done.
  cbn [default from_option id strict_eq andb]. unfold or_else.
  by rewrite unwrapInvoice_truthy, Hinv.
Qed.

End bulk.

(** A run is determined by its result and the world it leaves. *)
Lemma run_result {A W : Type} (run : A * W) (a : A) : fst run = a → run = (a, snd run).
Proof. destruct run. by intros <-. Qed.

Lemma archive_each_stops_at_first_failure_witness :
  fst (@archive_each ledger_remote demo_config (VStr "S")
         ([VObj demo_session] ++ VObj {["id" := VStr "ghost"]} :: [VObj demo_token])
         demo_world)
  = Throw (Error "Invoice not found for archiving.").
Proof.
  set (w1 := snd (@archive_each ledger_remote demo_config (VStr "S")
                    [VObj demo_session] demo_world)).
  set (w2 := snd (@archiveInvoice ledger_remote demo_config (VStr "S")
                    (prop (VObj {["id" := VStr "ghost"]}) "id") w1)).
  rewrite (@archive_each_stops_at_first_failure ledger_remote demo_config (VStr "S")
             [VObj demo_session] [VObj demo_token] (VObj {["id" := VStr "ghost"]})
             [VObj (<["btcpayId" := VStr "inv1"]> demo_session)]
             (Error "Invoice not found for archiving.") demo_world w1 w2).
  - reflexivity.
  - apply run_result. vm_compute. reflexivity.
  - apply run_result. vm_compute. reflexivity.
Defined.

Lemma archiveInvoicesByMetadata_no_match_witness :
  fst (@archiveInvoicesByMetadata ledger_remote demo_config (VStr "S") "userId"
         (VStr "u7") demo_world) = Ok [].
Proof.
  destruct (@archiveInvoicesByMetadata_no_match ledger_remote demo_config (VStr "S")
              "userId" (VStr "u7") (demo_listing "S") demo_world
              (snd (@request ledger_remote demo_config (Invoices [("storeId", "S")])
                      GET VUndef demo_world)))
    as (-> & _).
  - apply run_result. vm_compute. reflexivity.
  - repeat constructor.
  - vm_compute. reflexivity.
  - reflexivity.
Defined.

Lemma find_undefined_matches_missing_field_witness :
  fst (@findInvoiceByMetadata ledger_remote demo_config (VStr "T") "userId" VUndef
         demo_world)
  = Ok (unwrapInvoice (invoice_json demo_token_invoice)).
Proof.
  rewrite (@find_undefined_matches_missing_field ledger_remote demo_config (VStr "T")
             "userId" (demo_listing "T") (invoice_json demo_token_invoice)
             demo_world
             (snd (@request ledger_remote demo_config (Invoices [("storeId", "T")])
                     GET VUndef demo_world))).
  - reflexivity.
  - apply run_result. vm_compute. reflexivity.
  - repeat constructor.
  - vm_compute. reflexivity.
  - reflexivity.
  - done.
  - done.
  - reflexivity.
  - vm_compute. reflexivity.
Defined.

(** ** Generated identifiers *)

Lemma byte_of_hex_of_byte (b : byte) : byte_of_hex (hex_of_byte b) = Some b.
Proof. by destruct b. Qed.

Lemma hex_of_byte_inj (b1 b2 : byte) : hex_of_byte b1 = hex_of_byte b2 → b1 = b2.
Proof.
  intros Heq. apply (f_equal byte_of_hex) in Heq.
  rewrite !byte_of_hex_of_byte in Heq. by injection Heq.
Qed.

Lemma hex_of_bytes_inj (l1 l2 : list byte) :
  hex_of_bytes l1 = hex_of_bytes l2 → l1 = l2.
Proof.
  revert l2. induction l1 as [|b1 l1 IH]; intros [|b2 l2]; cbn [hex_of_bytes].
  - done.
  - unfold hex_of_byte. discriminate.
  - unfold hex_of_byte. discriminate.
  - intros Heq.
    assert (hex_of_byte b1 = hex_of_byte b2 ∧ hex_of_bytes l1 = hex_of_bytes l2)
      as [Hb Hl].
    { unfold hex_of_byte in *.
      change (String ?a (String ?b EmptyString) +:+ ?s) with (String a (String b s))
        in Heq.
      injection Heq as -> -> ->. done. }
    f_equal; [by apply hex_of_byte_inj|by apply IH].
Qed.

Lemma Ok_inj {A : Type} (a b : A) : Ok a = Ok b → a = b.
Proof. by intros [= ->]. Qed.

(** X15. [generateId] renders the next 12 bytes of the entropy source and
    moves past them. The rendering is injective, so two generated ids are
    equal only if the bytes drawn were, and the next call draws the 12 bytes
    that follow. *)
Theorem generateId_injective `{Remote} (w w' : world) :
  let drawn (w : world) := map (λ i, entropy w (cursor w + i)%nat) (seq 0 12) in
  (fst (generateId w) = fst (generateId w') ↔ drawn w = drawn w')
  ∧ fst (generateId w) = Ok (hex_of_bytes (drawn w))
  ∧ cursor (snd (generateId w)) = (cursor w + 12)%nat
  ∧ entropy (snd (generateId w)) = entropy w
  ∧ drawn (snd (generateId w))
    = map (λ i, entropy w (cursor w + 12 + i)%nat) (seq 0 12).
Proof.
  intros drawn. split; [|by repeat split].
  unfold generateId, randomBytes, mbind, M_bind, mret, M_ret. cbn [fst]. split.
  - intros Heq. apply hex_of_bytes_inj, Ok_inj, Heq.
  - unfold drawn. by intros ->.
Qed.

(** ** Where sessions and verification tokens are created *)



(** ** Creating, finding and archiving on the reference ledger *)


Lemma find_all_false {A : Type} (p : A → bool) (l : list A) :
  (∀ x, x ∈ l → p x = false) → List.find p l = None.
Proof.
  induction l as [|x l IH]; [done|]. intros Hall. cbn [List.find].
  rewrite (Hall x) by left. apply IH. intros y Hy. apply Hall. by right.
Qed.

Section ledger_round_trips.
Local Existing Instance ledger_remote.
Context (cfg : client_config).

Lemma getInvoiceByOrderId_ledger_any storeId orderId (w : world) :
  getInvoiceByOrderId cfg storeId orderId w
  = (Ok (from_option doc_of VNull
           (List.find inv_active
              (List.filter (selects [("storeId", to_string storeId);
                                     ("orderId", to_string orderId)])
                 (invoices (server w))))),
     logged [sent cfg (Invoices [("storeId", to_string storeId);
                                 ("orderId", to_string orderId)]) GET VUndef]
       (server w) w).
Proof.
  rewrite (getInvoiceByOrderId_list _ _ _ _ _ _ (request_listing _ _ _)).
  rewrite find_r_ledger. by destruct (List.find inv_active _).
Qed.



Lemma archive_keeps_others (i : invoice) (l : list invoice) (p : invoice → bool) :
  well_formed l = true → i ∈ l → p i = false →
  (∀ j, p (set_archived j) = p j) →
  List.filter p (archive_all [i] l) = List.filter p l.
Proof.
  intros Hwf Hi Hpi Hp.
  assert (∀ l', (∀ j, j ∈ l' → j ∈ l) →
                List.filter p (amend set_archived (inv_id i) (inv_store i) l')
                = List.filter p l') as Hgen.
  { induction l' as [|j l' IH]; [done|]. intros Hsub.
    cbn [amend map List.filter]. fold (amend set_archived (inv_id i) (inv_store i) l').
    rewrite IH by (intros; apply Hsub; by right).
    destruct (targets (inv_id i) (inv_store i) j) eqn:Ht; [|done].
    rewrite Hp. unfold targets in Ht. apply andb_true_iff in Ht as [Hid _].
    apply String.eqb_eq in Hid.
    assert (j = i) as -> by (apply (well_formed_ids l); [done|apply Hsub; by left|done..]).
    by rewrite Hpi. }
  rewrite <- amend_archive_all. by apply Hgen.
Qed.

(** X18. On a well-formed reference ledger, [archiveInvoice] hides exactly
    the document it archives: a lookup by the same store and order id then
    returns null, and a lookup by any other store or order id returns what
    it returned before. *)
Theorem archiving_hides_one_document storeId orderId (i : invoice) (w : world) :
  well_formed (invoices (server w)) = true →
  i ∈ invoices (server w) → inv_archived i = false →
  inv_store i = to_string storeId → inv_orderId i = to_string orderId →
  let w1 := snd (archiveInvoice cfg storeId orderId w) in
  fst (archiveInvoice cfg storeId orderId w) = Ok (doc_of i)
  ∧ fst (getInvoiceByOrderId cfg storeId orderId w1) = Ok VNull
  ∧ (∀ storeId' orderId',
       (to_string storeId', to_string orderId') ≠ (inv_store i, inv_orderId i) →
       fst (getInvoiceByOrderId cfg storeId' orderId' w1)
       = fst (getInvoiceByOrderId cfg storeId' orderId' w)).
Proof.
  intros Hwf Hi Ha Hs Ho w1. subst w1.
  rewrite (archiveInvoice_ledger _ _ _ _ _ Hwf Hi Ha Hs Ho). cbn [fst snd].
  split; [done|]. split.
  - rewrite getInvoiceByOrderId_ledger_any. cbn [fst logged server after_archiving invoices].
    rewrite find_all_false; [done|].
    intros j [Hj Hsel]%elem_of_filter_bool.
    rewrite selects_order, andb_true_iff, !String.eqb_eq in Hsel.
    destruct Hsel as [Hsj Hoj].
    apply archive_all_origin in Hj as (j0 & Hj0 & Hs0 & Ho0 & _ & _ & _ & Hhit & Hsame).
    unfold inv_active. destruct (inv_archived j) eqn:Haj; [done|].
    specialize (Hsame eq_refl). subst j0. exfalso.
    assert (j = i) as ->.
    { apply (well_formed_unique _ _ _ Hwf); try done; congruence. }
    by specialize (Hhit ltac:(left)).
  - intros storeId' orderId' Hother.
    rewrite !getInvoiceByOrderId_ledger_any.
    cbn [fst logged server after_archiving invoices].
    rewrite archive_keeps_others; [done..| |done].
    rewrite selects_order. apply andb_false_iff.
    destruct (String.eqb_spec (inv_store i) (to_string storeId')) as [Hs'|]; [|by left].
    destruct (String.eqb_spec (inv_orderId i) (to_string orderId')) as [Ho'|]; [|by right].
    exfalso. apply Hother. by rewrite Hs', Ho'.
Qed.

End ledger_round_trips.


Lemma archiving_hides_one_document_witness :
  let w1 := snd (@archiveInvoice ledger_remote demo_config (VStr "U") (VStr "u1")
                   demo_world) in
  fst (@getInvoiceByOrderId ledger_remote demo_config (VStr "U") (VStr "u1") w1)
  = Ok VNull
  ∧ fst (@getInvoiceByOrderId ledger_remote demo_config (VStr "S") (VStr "s1") w1)
    = fst (@getInvoiceByOrderId ledger_remote demo_config (VStr "S") (VStr "s1")
             demo_world).
Proof.
  intros w1.
  destruct (archiving_hides_one_document demo_config (VStr "U") (VStr "u1")
              demo_user_invoice demo_world) as (_ & Hgone & Hothers).
  - vm_compute. reflexivity.
  - by left.
  - reflexivity.
  - reflexivity.
  - reflexivity.
  - split; [exact Hgone|]. apply Hothers. discriminate.
Defined.

(** ** Looking for what is not there, and failing requests *)

Section absent.
Context `{Remote} (cfg : client_config).

(** X19. Looking for a document that is not there returns null and does
    not throw: [getUser] on an id with no active invoice, and
    [getUserByEmail], [getSessionAndUser], [deleteSession] and
    [useVerificationToken] when no active document has the field asked
    for. *)
Theorem absent_documents_give_null (a : Adapter) (id email sessionToken data : value)
  (response : value) (users sessions tokens : list value)
  (w w1 w2 w3 w4 : world) :
  auth_adapter cfg = Ok a →
  request cfg (Invoices [("storeId", to_string (userStoreId cfg));
                         ("orderId", to_string id)]) GET VUndef w = (Ok response, w1) →
  no_active response = true →
  request cfg (Invoices [("storeId", to_string (userStoreId cfg))]) GET VUndef w
  = (Ok (VArr users), w2) →
  Forall (λ inv, nullish inv = false) users →
  List.find (field_matches "email" email)
    (map unwrapInvoice (List.filter active users)) = None →
  request cfg (Invoices [("storeId", to_string (sessionStoreId cfg))]) GET VUndef w
  = (Ok (VArr sessions), w3) →
  Forall (λ inv, nullish inv = false) sessions →
  List.find (field_matches "sessionToken" sessionToken)
    (map unwrapInvoice (List.filter active sessions)) = None →
  request cfg (Invoices [("storeId", to_string (verificationTokenStoreId cfg))])
    GET VUndef w = (Ok (VArr tokens), w4) →
  Forall (λ inv, nullish inv = false) tokens →
  nullish data = false →
  List.find (field_matches "identifier" (prop data "identifier"))
    (map unwrapInvoice (List.filter active tokens)) = None →
  getUser a id w = (Ok VNull, w1)
  ∧ getUserByEmail a email w = (Ok VNull, w2)
  ∧ getSessionAndUser a sessionToken w = (Ok VNull, w3)
  ∧ deleteSession a sessionToken w = (Ok VNull, w3)
  ∧ useVerificationToken a data w = (Ok VNull, w4).
Proof.
  intros Hadapter Hq Hnone Hu Husers Hemail Hs Hsessions Htoken Ht Htokens Hdata Hident.
  apply auth_adapter_methods in Hadapter as ->.
  assert (∀ store field v l w',
    request cfg (Invoices [("storeId", to_string store)]) GET VUndef w = (Ok (VArr l), w') →
    Forall (λ inv, nullish inv = false) l →
    List.find (field_matches field v) (map unwrapInvoice (List.filter active l)) = None →
    findInvoiceByMetadata cfg store field v w = (Ok VNull, w')) as Hfind.
  { intros store field v l w' Hrq Hl Hno.
    erewrite findInvoiceByMetadata_listed.
    2: { rewrite (listInvoices_list _ _ None _ _ _ Hrq).
         by rewrite (filter_r_objects _ Hl). }
    by rewrite Hno. }
  assert (∀ store field v l w',
    request cfg (Invoices [("storeId", to_string store)]) GET VUndef w = (Ok (VArr l), w') →
    Forall (λ inv, nullish inv = false) l →
    List.find (field_matches field v) (map unwrapInvoice (List.filter active l)) = None →
    findDocumentByField (BTCPayClient cfg) store field v w = (Ok VNull, w')) as Hfield.
  { intros store field v l w' Hrq Hl Hno. unfold findDocumentByField.
    cbn [c_findInvoiceByMetadata BTCPayClient].
    by rewrite (bind_ok _ _ _ _ _ (Hfind _ _ _ _ _ Hrq Hl Hno)). }
  cbn [getUser getUserByEmail getSessionAndUser deleteSession useVerificationToken
       adapter_methods Users Sessions VerificationTokens].
  split_and!.
  - unfold getDocument. cbn [c_getInvoiceByOrderId BTCPayClient].
    by rewrite (bind_ok _ _ _ _ _ (getInvoiceByOrderId_none cfg _ _ _ _ _ Hq Hnone)).
  - by apply (Hfield _ _ _ users).
  - by rewrite (bind_ok _ _ _ _ _ (Hfield _ _ _ _ _ Hs Hsessions Htoken)).
  - by rewrite (bind_ok _ _ _ _ _ (Hfield _ _ _ _ _ Hs Hsessions Htoken)).
  - unfold get. rewrite Hdata. unfold lift at 1. erewrite bind_ok; [|reflexivity].
    cbn [c_findInvoiceByMetadata BTCPayClient].
    by rewrite (bind_ok _ _ _ _ _ (Hfind _ _ _ _ _ Ht Htokens Hident)).
Qed.

(** X20. When the token documents have no field of their own called
    [metadata], [useVerificationToken] either throws a [TypeError] or returns
    null, and in both cases sends the listing request alone: it never
    archives a token. *)
Theorem verification_tokens_are_never_archived (a : Adapter) (data : value)
  (tokens : list value) (w w' : world) :
  auth_adapter cfg = Ok a →
  nullish data = false →
  request cfg (Invoices [("storeId", to_string (verificationTokenStoreId cfg))])
    GET VUndef w = (Ok (VArr tokens), w') →
  forallb (λ inv, negb (nullish inv) && plain inv) tokens = true →
  (useVerificationToken a data w = (Throw TypeError, w')
   ∨ useVerificationToken a data w = (Ok VNull, w'))
  ∧ trace w' = trace w ++ [sent cfg (Invoices [("storeId",
                                       to_string (verificationTokenStoreId cfg))])
                             GET VUndef].
Proof.
  intros Hadapter Hdata Hrq Hplain. split.
  - rewrite (useVerificationToken_plain _ _ _ _ _ _ Hadapter Hdata Hrq Hplain).
    destruct (List.find _ _); [by left|by right].
  - rewrite request_sent in Hrq. by injection Hrq as _ <-.
Qed.

(** X21. A failing request ends the operation with that error unchanged,
    and nothing more is sent: no retry, no fallback. Each case stands on its
    own: the query of [getInvoiceByOrderId], [updateInvoice] or
    [archiveInvoice] failing, the listing of [listInvoices],
    [findInvoiceByMetadata] or [archiveInvoicesByMetadata] failing, and the
    creation request of [createInvoice] failing. *)
Theorem failed_requests_propagate :
  (∀ storeId orderId doc (e : exn) (w w' : world),
     request cfg (Invoices [("storeId", to_string storeId);
                            ("orderId", to_string orderId)]) GET VUndef w
     = (Throw e, w') →
     getInvoiceByOrderId cfg storeId orderId w = (Throw e, w')
     ∧ updateInvoice cfg storeId orderId doc w = (Throw e, w')
     ∧ archiveInvoice cfg storeId orderId w = (Throw e, w'))
  ∧ (∀ storeId queryParams (e : exn) (w w' : world),
       request cfg (Invoices (default [] queryParams ++ [("storeId", to_string storeId)]))
         GET VUndef w = (Throw e, w') →
       listInvoices cfg storeId queryParams w = (Throw e, w'))
  ∧ (∀ storeId key v (e : exn) (w w' : world),
       request cfg (Invoices [("storeId", to_string storeId)]) GET VUndef w
       = (Throw e, w') →
       findInvoiceByMetadata cfg storeId key v w = (Throw e, w')
       ∧ archiveInvoicesByMetadata cfg storeId key v w = (Throw e, w'))
  ∧ (∀ storeId doc (e : exn) (w w' : world),
       request cfg (Invoices [("storeId", to_string storeId)]) POST (wrapPayload doc) w
       = (Throw e, w') →
       createInvoice cfg storeId doc w = (Throw e, w')).
Proof.
  assert (∀ storeId queryParams (e : exn) (w w' : world),
            request cfg (Invoices (default [] queryParams
                                   ++ [("storeId", to_string storeId)]))
              GET VUndef w = (Throw e, w') →
            listInvoices cfg storeId queryParams w = (Throw e, w')) as Hlist.
  { intros storeId queryParams e w w' Hrq. unfold listInvoices.
    by rewrite (bind_throw _ _ _ _ _ Hrq). }
  split_and!.
  - intros storeId orderId doc e w w' Hrq.
    assert (getInvoiceByOrderId cfg storeId orderId w = (Throw e, w')) as Hget.
    { unfold getInvoiceByOrderId. by rewrite (bind_throw _ _ _ _ _ Hrq). }
    split_and!; [done|..].
    + unfold updateInvoice. by rewrite (bind_throw _ _ _ _ _ Hget).
    + unfold archiveInvoice. by rewrite (bind_throw _ _ _ _ _ Hget).
  - exact Hlist.
  - intros storeId key v e w w' Hrq. pose proof (Hlist storeId None e w w' Hrq) as Hl.
    split.
    + unfold findInvoiceByMetadata. by rewrite (bind_throw _ _ _ _ _ Hl).
    + unfold archiveInvoicesByMetadata. by rewrite (bind_throw _ _ _ _ _ Hl).
  - intros storeId doc e w w' Hrq. unfold createInvoice.
    by rewrite (bind_throw _ _ _ _ _ Hrq).
Qed.

End absent.

Ltac evaluate_run :=
  lazymatch goal with
  | |- Forall _ _ => repeat constructor
  | |- _ = (_, _) => apply run_result; vm_compute; reflexivity
  | |- _ => vm_compute; reflexivity
  end.

Lemma absent_documents_give_null_witness :
  fst (getUser demo_adapter (VStr "ghost") demo_world) = Ok VNull
  ∧ fst (getUserByEmail demo_adapter (VStr "nobody@b.com") demo_world) = Ok VNull
  ∧ fst (useVerificationToken demo_adapter
           (VObj {["identifier" := VStr "nobody@b.com"]}) demo_world) = Ok VNull.
Proof.
  destruct (@absent_documents_give_null ledger_remote demo_config demo_adapter
              (VStr "ghost") (VStr "nobody@b.com") (VStr "nope")
              (VObj {["identifier" := VStr "nobody@b.com"]})
              (VArr []) (demo_listing "U") (demo_listing "S") (demo_listing "T")
              demo_world
              (snd (@request ledger_remote demo_config
                      (Invoices [("storeId", "U"); ("orderId", "ghost")])
                      GET VUndef demo_world))
              (snd (@request ledger_remote demo_config (Invoices [("storeId", "U")])
                      GET VUndef demo_world))
              (snd (@request ledger_remote demo_config (Invoices [("storeId", "S")])
                      GET VUndef demo_world))
              (snd (@request ledger_remote demo_config (Invoices [("storeId", "T")])
                      GET VUndef demo_world)))
    as (-> & -> & _ & _ & ->); [reflexivity|evaluate_run..|].
  by split_and!.
Defined.

Lemma verification_tokens_are_never_archived_witness :
  let data := VObj (<["identifier" := VStr "a@b.com"]> (<["token" := VStr "123"]> ∅)) in
  let w' := snd (@request ledger_remote demo_config (Invoices [("storeId", "T")])
                   GET VUndef demo_world) in
  (useVerificationToken demo_adapter data demo_world = (Throw TypeError, w')
   ∨ useVerificationToken demo_adapter data demo_world = (Ok VNull, w'))
  ∧ map rq_method (trace w') = [GET].
Proof.
  intros data w'.
  destruct (@verification_tokens_are_never_archived ledger_remote demo_config
              demo_adapter data (demo_listing "T") demo_world w')
    as [Hrun Htrace]; [reflexivity|reflexivity|evaluate_run..|].
  split; [exact Hrun|]. by rewrite Htrace.
Defined.

Lemma failed_requests_propagate_witness :
  (let R := fixed_remote (Throw (FetchError 503)) in
   let w : @world R := start () in
   fst (@updateInvoice R demo_config (VStr "U") (VStr "u1") (VObj demo_user) w)
   = Throw (FetchError 503)
   ∧ fst (@findInvoiceByMetadata R demo_config (VStr "U") "email" (VStr "a@b.com") w)
     = Throw (FetchError 503))
  ∧ fst (@createInvoice ledger_remote demo_config (VStr "U")
           (VObj {["email" := VStr "a@b.com"]}) demo_world)
    = Throw (FetchError 400).
Proof.
  split.
  - intros R w.
    destruct (@failed_requests_propagate R demo_config) as (Hquery & _ & Hlisting & _).
    destruct (Hquery (VStr "U") (VStr "u1") (VObj demo_user) _ w _ eq_refl)
      as (_ & -> & _).
    destruct (Hlisting (VStr "U") "email" (VStr "a@b.com") _ w _ eq_refl) as [-> _].
    by split.
  - destruct (@failed_requests_propagate ledger_remote demo_config)
      as (_ & _ & _ & Hcreate).
    rewrite (Hcreate (VStr "U") (VObj {["email" := VStr "a@b.com"]})
               (FetchError 400) demo_world
               (snd (@request ledger_remote demo_config (Invoices [("storeId", "U")])
                       POST (wrapPayload (VObj {["email" := VStr "a@b.com"]}))
                       demo_world))).
    + reflexivity.
    + apply run_result. vm_compute. reflexivity.
Defined.

(** ** Where the cascade of [deleteUser] falls short *)

Lemma twice_created_run :
  fst (deleteUser demo_adapter (VStr "u1") twice_created) = Ok VUndef
  ∧ map (λ j, (inv_id j, inv_store j, inv_orderId j, inv_archived j))
      (invoices (server (snd (deleteUser demo_adapter (VStr "u1") twice_created))))
    = [("inv0", "U", "u1", true); ("inv1", "U", "u1", false)]
  ∧ well_formed (invoices (server twice_created)) = false.
Proof. split_and!; vm_compute; reflexivity. Qed.

Lemma shared_session_id_run :
  fst (deleteUser demo_adapter (VStr "u1") shared_session_id) = Ok VUndef
  ∧ map (λ j, (inv_store j, inv_orderId j, prop (doc_of j) "userId", inv_archived j))
      (invoices (server (snd (deleteUser demo_adapter (VStr "u1") shared_session_id))))
    = [("S", "s1", VStr "u2", true); ("S", "s1", VStr "u1", false);
       ("U", "u1", VUndef, true)].
Proof. split_and!; vm_compute; reflexivity. Qed.

(** C7, where the claim as stated fails. [createUser] does not check that an
    id is new, so two active invoices of the Users store can share an order
    id; [deleteUser("u1")] then completes and leaves the second one active.
    In the same way, of two sessions created under one id, it archives the
    first, which belongs to another user, and leaves the session of "u1"
    active. *)
Lemma deleteUser_cascade_counterexample :
  ¬ cascade_done demo_config demo_adapter (VStr "u1") twice_created
  ∧ ¬ cascade_done demo_config demo_adapter (VStr "u1") shared_session_id.
Proof.
  split.
  - intros Hdone.
    destruct twice_created_run as (Hok & Hleft & _).
    destruct (Hdone _ (run_result _ _ Hok)) as (Husers & _).
    set (l := invoices (server (snd (deleteUser demo_adapter (VStr "u1") twice_created))))
      in *.
    assert (∃ j, j ∈ l ∧ inv_store j = "U" ∧ inv_orderId j = "u1"
                 ∧ inv_archived j = false) as (j & Hj & Hs & Ho & Ha).
    { apply (f_equal (λ k, k !! 1%nat)) in Hleft.
      change (map ?f l) with (f <$> l) in Hleft.
      rewrite list_lookup_fmap in Hleft.
      destruct (l !! 1%nat) as [j|] eqn:Hj; [|discriminate].
      apply Some_inj in Hleft. exists j.
      split; [by eapply list_elem_of_lookup_2|].
      by split_and!; congruence. }
    rewrite (Husers j Hj Hs Ho) in Ha. discriminate.
  - intros Hdone.
    destruct shared_session_id_run as (Hok & Hleft).
    destruct (Hdone _ (run_result _ _ Hok)) as (_ & Hsessions & _).
    set (l := invoices (server (snd (deleteUser demo_adapter (VStr "u1")
                                       shared_session_id)))) in *.
    assert (∃ j, j ∈ l ∧ inv_store j = "S" ∧ prop (doc_of j) "userId" = VStr "u1"
                 ∧ inv_archived j = false) as (j & Hj & Hs & Hu & Ha).
    { apply (f_equal (λ k, k !! 1%nat)) in Hleft.
      change (map ?f l) with (f <$> l) in Hleft.
      rewrite list_lookup_fmap in Hleft.
      destruct (l !! 1%nat) as [j|] eqn:Hj; [|discriminate].
      apply Some_inj in Hleft. exists j.
      split; [by eapply list_elem_of_lookup_2|].
      by split_and!; congruence. }
    rewrite (Hsessions j Hj Hs) in Ha; [discriminate|]. by rewrite Hu.
Qed.
